(** * mcp-notebook: the notebook-to-text pipeline of [main.py]

    A shallow embedding of the rendering and filtering functions of
    [main.py] ([manual.py] carries the same functions verbatim), and the
    properties the specification states about them.

    Modelling conventions.
    - A Python [str] is a Rocq [string]; a character is a code point in
      U+0000..U+00FF, on which [str.lower], [str.strip] and
      [str.splitlines] act character by character.  Text outside that
      range is not covered.
    - A Python [int] is a [Z]; [None] for an optional argument is [None].
    - A raised exception is the left summand of [exn + A]; a [for]
      loop that builds [result] by [append] is a recursion over the
      list that carries [result].
    - [nbformat.read] and [repr] belong to the runtime and are section
      variables.
    - What [nbformat.read] returns is modelled twice.  [Node.cell] and
      [Node.output] are the nodes as the tool meets them: any field may
      be missing, and reading a missing field raises [AttributeError].
      [cell] and [output] are the cells and outputs whose fields are
      all there; [cell_view] and [output_view] take a node to them by
      the reads the source performs, in its order.  A field that is
      there holds a value of the type the notebook schema gives it. *)

From Stdlib Require Import ZArith Lia List Bool Ascii String DecimalString
  DecimalPos.
From stdpp Require Import base list strings gmap.
Import ListNotations.

Local Open Scope Z_scope.
Local Open Scope list_scope.
Local Open Scope string_scope.

(** [simpl] unfolds string concatenation on a constructor again. *)
#[local] Arguments String.append !_ _ : simpl nomatch.

(** ** Python string primitives *)

Module PyStr.

(** [Py_UNICODE_ISSPACE] below U+0100: what [str.strip()] removes. *)
Definition isspace (c : ascii) : bool :=
  let n := nat_of_ascii c in
  ((9 <=? n) && (n <=? 13) || (28 <=? n) && (n <=? 32)
   || (n =? 133) || (n =? 160))%nat.

(** [Py_UNICODE_ISLINEBREAK] below U+0100: where [str.splitlines()] cuts. *)
Definition islinebreak (c : ascii) : bool :=
  let n := nat_of_ascii c in
  ((10 <=? n) && (n <=? 13) || (28 <=? n) && (n <=? 30) || (n =? 133))%nat.

Definition lower_char (c : ascii) : ascii :=
  let n := nat_of_ascii c in
  if ((65 <=? n) && (n <=? 90)
      || (192 <=? n) && (n <=? 222) && negb (n =? 215))%nat
  then ascii_of_nat (n + 32) else c.

(** [s.lower()] *)
Fixpoint lower (s : string) : string :=
  match s with
  | EmptyString => EmptyString
  | String c s' => String (lower_char c) (lower s')
  end.

Fixpoint lstrip (s : string) : string :=
  match s with
  | EmptyString => EmptyString
  | String c s' => if isspace c then lstrip s' else s
  end.

Fixpoint rstrip (s : string) : string :=
  match s with
  | EmptyString => EmptyString
  | String c s' =>
      match rstrip s' with
      | EmptyString => if isspace c then EmptyString else String c EmptyString
      | r => String c r
      end
  end.

(** [s.strip()] *)
Definition strip (s : string) : string := rstrip (lstrip s).

(** [s.startswith(p)] *)
Definition startswith (s p : string) : bool := String.prefix p s.

Fixpoint drop (n : nat) (s : string) : string :=
  match n, s with
  | O, _ => s
  | S n', String _ s' => drop n' s'
  | S _, EmptyString => EmptyString
  end.

(** The text before and after the leftmost occurrence of [sep] in [s]. *)
Fixpoint find_sub (sep s : string) : option (string * string) :=
  if String.prefix sep s then Some (EmptyString, drop (String.length sep) s)
  else match s with
       | EmptyString => None
       | String c s' =>
           match find_sub sep s' with
           | Some (a, b) => Some (String c a, b)
           | None => None
           end
       end.

(** [p in s] *)
Definition contains (s p : string) : bool :=
  match find_sub p s with Some _ => true | None => false end.

(** [s.split(sep, maxsplit)] for a non-empty [sep]; [maxsplit = None] is
    Python's default of no limit.  Every cut consumes at least one
    character, so [S (length s)] rounds are enough. *)
Fixpoint split_fuel (fuel : nat) (sep : string) (maxsplit : option nat)
    (s : string) : list string :=
  match fuel with
  | O => [s]
  | S fuel' =>
      match maxsplit with
      | Some O => [s]
      | _ =>
          match find_sub sep s with
          | None => [s]
          | Some (a, b) =>
              a :: split_fuel fuel' sep (option_map Nat.pred maxsplit) b
          end
      end
  end.

Definition split (s sep : string) (maxsplit : option nat) : list string :=
  split_fuel (S (String.length s)) sep maxsplit s.

(** [s.splitlines()]: cuts after every line break, takes a carriage
    return and a line feed that follows it as one break, and yields no
    empty last line. *)
Fixpoint splitlines (s : string) : list string :=
  match s with
  | EmptyString => []
  | String c s' =>
      if islinebreak c then
        EmptyString ::
          (if (nat_of_ascii c =? 13)%nat then
             match s' with
             | String d s'' =>
                 if (nat_of_ascii d =? 10)%nat then splitlines s''
                 else splitlines s'
             | EmptyString => splitlines s'
             end
           else splitlines s')
      else
        match splitlines s' with
        | [] => [String c EmptyString]
        | l :: ls => String c l :: ls
        end
  end.

(** [sep.join(xs)] *)
Definition join (sep : string) (xs : list string) : string :=
  String.concat sep xs.

(** [str(n)] for an [int]. *)
Definition str_int (n : Z) : string := NilEmpty.string_of_int (Z.to_int n).

Definition str_bool (b : bool) : string := if b then "True" else "False".

Definition isdigit (c : ascii) : bool :=
  let n := nat_of_ascii c in ((48 <=? n) && (n <=? 57))%nat.

Definition digit_val (c : ascii) : Z := Z.of_nat (nat_of_ascii c) - 48.

Inductive digit_state := NoDigit | AfterDigit | AfterUnderscore.

(** The digit part of an integer literal: decimal digits, with single
    underscores allowed between two digits. *)
Fixpoint parse_digits (st : digit_state) (acc : Z) (s : string) : option Z :=
  match s with
  | EmptyString => match st with AfterDigit => Some acc | _ => None end
  | String c s' =>
      if isdigit c then parse_digits AfterDigit (10 * acc + digit_val c) s'
      else if (nat_of_ascii c =? 95)%nat then
        match st with
        | AfterDigit => parse_digits AfterUnderscore acc s'
        | _ => None
        end
      else None
  end.

(** [int(s)] in base 10: surrounding white space is dropped, one sign is
    allowed; [None] stands for the [ValueError]. *)
Definition int_of_str (s : string) : option Z :=
  match strip s with
  | String "-" s' => option_map Z.opp (parse_digits NoDigit 0 s')
  | String "+" s' => parse_digits NoDigit 0 s'
  | s' => parse_digits NoDigit 0 s'
  end.

End PyStr.

Import PyStr.

Definition LF : ascii := ascii_of_nat 10.

(** The string ["\n"]. *)
Definition newline : string := String LF EmptyString.

(** ** The notebook document, as [nbformat] hands it over *)

(** A [source] or [text] field: absent, one string, or a list of
    fragments. *)
Inductive text_value :=
| TextNone
| TextStr (s : string)
| TextList (fragments : list string).

(** An output record with its fields all there, by [output_type]. *)
Inductive output :=
| Stream (text : text_value)
| ExecuteResult (data : option (gmap string string))
| DisplayData (data : option (gmap string string))
| Error (ename evalue : string) (traceback : list string)
| OtherOutput (output_type : string).

(** A cell with its fields all there. *)
Record cell := Cell {
  cell_type : string;
  source : text_value;
  execution_count : option Z;
  outputs : list output
}.

(** What the pipeline can raise: [int] rejecting a literal, whatever
    [nbformat.read] raised, with its message, and the [AttributeError]
    of a notebook node asked for a field it does not have. *)
Inductive exn :=
| ValueError_int (literal : string)
| ReadError (message : string)
| AttributeError (name : string).

Definition outcome (A : Type) : Type := exn + A.

Definition bind {A B} (m : outcome A) (k : A -> outcome B) : outcome B :=
  match m with inl e => inl e | inr a => k a end.

Notation "'let*' x := m 'in' k" := (bind m (fun x => k))
  (at level 10, x name, m at level 100, k at level 200).

(** [xs[i]] at the three places where the source indexes the result of
    a [split]; the element is there each time ([split_first],
    [split_after_marker], [split_after_bracket]), so the default is
    never returned. *)
Definition item (xs : list string) (i : nat) : string := nth i xs EmptyString.

(** ** Utilities *)

Definition normalize_text (x : text_value) : string :=
  match x with
  | TextList fragments => join "" fragments
  | TextStr s => match s with EmptyString => "" | _ => s end
  | TextNone => ""
  end.

Definition is_empty (s : string) : bool :=
  match s with EmptyString => true | _ => false end.

(** One round of the loop of [format_outputs] over [(lines, has_error)]. *)
Definition format_outputs_step (st : list string * bool) (out : output)
    : list string * bool :=
  let '(lines, has_error) := st in
  match out with
  | Stream text =>
      let text := strip (normalize_text text) in
      if is_empty text then st else ((lines ++ [text])%list, has_error)
  | ExecuteResult data | DisplayData data =>
      let data := default (∅ : gmap string string) data in
      match data !! "text/plain" with
      | Some v => ((lines ++ [strip v])%list, has_error)
      | None => st
      end
  | Error ename evalue traceback =>
      (((lines ++ ["ERROR:"]) ++ [ename ++ ": " ++ evalue]%string ++ traceback)%list, true)
  | OtherOutput _ => st
  end.

Definition format_outputs (outputs : list output) : string * bool :=
  let '(lines, has_error) := fold_left format_outputs_step outputs ([], false) in
  (join newline lines, has_error).

Definition str_execution_count (n : option Z) : string :=
  match n with Some k => str_int k | None => "None" end.

Definition format_cell (c : cell) (index : Z) : string :=
  let source := strip (normalize_text (source c)) in
  if (cell_type c =? "markdown")%string then
    newline ++ "[CELL " ++ str_int index ++ " | MARKDOWN]" ++ newline
    ++ source ++ newline
  else if (cell_type c =? "code")%string then
    let '(output_text, has_error) := format_outputs (outputs c) in
    newline ++ "[CELL " ++ str_int index ++ " | CODE]" ++ newline
    ++ "[EXECUTION_COUNT] " ++ str_execution_count (execution_count c) ++ newline
    ++ "[HAS_ERROR] " ++ str_bool has_error ++ newline ++ newline
    ++ source ++ newline ++ newline
    ++ "[OUTPUT]" ++ newline
    ++ (if is_empty output_text then "<NO OUTPUT>" else output_text) ++ newline
  else "".

(** The loop of [notebook_to_llm_blocks] over cells whose fields are
    all there: [i] is the position [enumerate] hands out. *)
Fixpoint render_cells (cells : list cell) (i : Z) (blocks : list string)
    : list string :=
  match cells with
  | [] => blocks
  | c :: rest =>
      let block := format_cell c i in
      render_cells rest (i + 1)
        (if is_empty (strip block) then blocks else (blocks ++ [block])%list)
  end.

(** ** Cells and outputs as [nbformat.read] hands them over *)

(** [node.name]: the value of the field, or the [AttributeError] a
    notebook node raises for a field it does not have. *)
Definition getattr {A} (field : option A) (name : string) : outcome A :=
  match field with
  | Some v => inr v
  | None => inl (AttributeError name)
  end.

Module Node.

(** An output node; [None] is a field the node does not have, and
    [data = Some None] a [data] field that is [null]. *)
Record output := Output {
  output_type : option string;
  text : option text_value;
  data : option (option (gmap string string));
  ename : option string;
  evalue : option string;
  traceback : option (list string)
}.

(** A cell node; [execution_count = Some None] is a code cell that was
    not run. *)
Record cell := Cell {
  cell_type : option string;
  source : option text_value;
  execution_count : option (option Z);
  outputs : option (list output)
}.

(** The loop of [format_outputs] over [lines] and [has_error]. *)
Fixpoint format_outputs_loop (outputs : list output) (lines : list string)
    (has_error : bool) : outcome (list string * bool) :=
  match outputs with
  | [] => inr (lines, has_error)
  | out :: rest =>
      let* otype := getattr (output_type out) "output_type" in
      if (otype =? "stream")%string then
        let* text := getattr (text out) "text" in
        let text := strip (normalize_text text) in
        if is_empty text then format_outputs_loop rest lines has_error
        else format_outputs_loop rest (lines ++ [text])%list has_error
      else if (otype =? "execute_result")%string
              || (otype =? "display_data")%string then
        let* data := getattr (data out) "data" in
        let data := default (∅ : gmap string string) data in
        match data !! "text/plain" with
        | Some v => format_outputs_loop rest (lines ++ [strip v])%list has_error
        | None => format_outputs_loop rest lines has_error
        end
      else if (otype =? "error")%string then
        let* ename := getattr (ename out) "ename" in
        let* evalue := getattr (evalue out) "evalue" in
        let* traceback := getattr (traceback out) "traceback" in
        format_outputs_loop rest
          (((lines ++ ["ERROR:"]) ++ [ename ++ ": " ++ evalue]%string
            ++ traceback)%list)
          true
      else format_outputs_loop rest lines has_error
  end.

Definition format_outputs (outputs : list output) : outcome (string * bool) :=
  let* st := format_outputs_loop outputs [] false in
  inr (join newline (fst st), snd st).

Definition format_cell (c : cell) (index : Z) : outcome string :=
  let* source := getattr (source c) "source" in
  let source := strip (normalize_text source) in
  let* ty := getattr (cell_type c) "cell_type" in
  if (ty =? "markdown")%string then
    inr (newline ++ "[CELL " ++ str_int index ++ " | MARKDOWN]" ++ newline
         ++ source ++ newline)
  else if (ty =? "code")%string then
    let* outs := getattr (outputs c) "outputs" in
    let* rendered := format_outputs outs in
    let output_text := fst rendered in
    let has_error := snd rendered in
    let* execution_count := getattr (execution_count c) "execution_count" in
    inr (newline ++ "[CELL " ++ str_int index ++ " | CODE]" ++ newline
         ++ "[EXECUTION_COUNT] " ++ str_execution_count execution_count
         ++ newline
         ++ "[HAS_ERROR] " ++ str_bool has_error ++ newline ++ newline
         ++ source ++ newline ++ newline
         ++ "[OUTPUT]" ++ newline
         ++ (if is_empty output_text then "<NO OUTPUT>" else output_text)
         ++ newline)
  else inr "".

(** The loop of [notebook_to_llm_blocks]: [i] is the position
    [enumerate] hands out. *)
Fixpoint render_cells (cells : list cell) (i : Z) (blocks : list string)
    : outcome (list string) :=
  match cells with
  | [] => inr blocks
  | c :: rest =>
      let* block := format_cell c i in
      render_cells rest (i + 1)
        (if is_empty (strip block) then blocks else (blocks ++ [block])%list)
  end.

End Node.

(** [nb.cells] *)
Definition notebook := list Node.cell.

(** ** Filters *)

(** The [keywords] argument: one string, or a list of strings. *)
Inductive keywords_arg :=
| KwStr (k : string)
| KwList (ks : list string).

Definition keyword_list (keywords : keywords_arg) : list string :=
  match keywords with KwStr k => [k] | KwList ks => ks end.

Fixpoint filter_by_keyword_loop (keywords : list string)
    (blocks result : list string) : list string :=
  match blocks with
  | [] => result
  | block :: rest =>
      let text := lower block in
      filter_by_keyword_loop keywords rest
        (if existsb (fun k => contains text (lower k)) keywords
         then (result ++ [block])%list else result)
  end.

Definition filter_by_keyword (blocks : list string) (keywords : keywords_arg)
    : list string :=
  filter_by_keyword_loop (keyword_list keywords) blocks [].

(** [int(header.split("[CELL")[1].split("|")[0].strip())] *)
Definition header_index (header : string) : outcome Z :=
  let literal := strip (item (split (item (split header "[CELL" None) 1) "|" None) 0) in
  match int_of_str literal with
  | Some idx => inr idx
  | None => inl (ValueError_int literal)
  end.

Fixpoint filter_by_cell_index_loop (start end_ : option Z)
    (blocks result : list string) : outcome (list string) :=
  match blocks with
  | [] => inr result
  | block :: rest =>
      let header := item (split block newline (Some 1%nat)) 0 in
      if negb (startswith header "[CELL") then
        filter_by_cell_index_loop start end_ rest result
      else
        let* idx := header_index header in
        if match start with Some s => (idx <? s)%Z | None => false end then
          filter_by_cell_index_loop start end_ rest result
        else if match end_ with Some e => (idx >=? e)%Z | None => false end then
          filter_by_cell_index_loop start end_ rest result
        else filter_by_cell_index_loop start end_ rest (result ++ [block])%list
  end.

Definition filter_by_cell_index (blocks : list string) (start end_ : option Z)
    : outcome (list string) :=
  filter_by_cell_index_loop start end_ blocks [].

(** [line.split("]", 1)[1].strip().lower() == "true"] *)
Definition has_error_flag (line : string) : bool :=
  (lower (strip (item (split line "]" (Some 1%nat)) 1)) =? "true")%string.

(** The inner loop of [filter_has_error] over the lines of [block]: the
    first line that starts with the tag decides, then the loop breaks. *)
Fixpoint has_error_scan (has_error : bool) (block : string)
    (lines : list string) (result : list string) : list string :=
  match lines with
  | [] => result
  | line :: rest =>
      if startswith line "[HAS_ERROR]" then
        let flag := has_error_flag line in
        if Bool.eqb flag has_error then (result ++ [block])%list else result
      else has_error_scan has_error block rest result
  end.

Fixpoint filter_has_error_loop (has_error : bool) (blocks result : list string)
    : list string :=
  match blocks with
  | [] => result
  | block :: rest =>
      filter_has_error_loop has_error rest
        (has_error_scan has_error block (splitlines block) result)
  end.

Definition filter_has_error (blocks : list string) (has_error : bool)
    : list string :=
  filter_has_error_loop has_error blocks [].

(** ** The tool *)

Definition no_match : string :=
  "No matching cells found with the specified filters.".

Definition is_given {A} (x : option A) : bool :=
  match x with Some _ => true | None => false end.

Definition truthy_keywords (keywords : option keywords_arg) : bool :=
  match keywords with
  | None => false
  | Some (KwStr k) => negb (is_empty k)
  | Some (KwList ks) => match ks with [] => false | _ => true end
  end.

Section Tool.

(** [nbformat.read(path, as_version=4)]: the cells of the notebook, or
    the exception it raised. *)
Variable nb_read : string -> outcome notebook.

(** [repr] of a string, as it appears in the message of [int]'s
    [ValueError]. *)
Variable repr : string -> string.

(** [str(e)] *)
Definition exn_str (e : exn) : string :=
  match e with
  | ValueError_int literal =>
      "invalid literal for int() with base 10: " ++ repr literal
  | ReadError message => message
  | AttributeError name => name
  end.

Definition notebook_to_llm_blocks (notebook_path : string)
    : outcome (list string) :=
  let* nb := nb_read notebook_path in
  Node.render_cells nb 0 [].

(** The [try] body of [read_notebook] up to its last filter. *)
Definition filtered_blocks (path : string) (keywords : option keywords_arg)
    (start_cell end_cell : option Z) (only_errors : option bool)
    : outcome (list string) :=
  let* blocks := notebook_to_llm_blocks path in
  let blocks :=
    match keywords with
    | Some kws =>
        if truthy_keywords keywords then filter_by_keyword blocks kws
        else blocks
    | None => blocks
    end in
  let* blocks :=
    if is_given start_cell || is_given end_cell
    then filter_by_cell_index blocks start_cell end_cell
    else inr blocks in
  inr (match only_errors with
       | Some b => filter_has_error blocks b
       | None => blocks
       end).

Definition read_notebook (path : string) (keywords : option keywords_arg)
    (start_cell end_cell : option Z) (only_errors : option bool) : string :=
  match
    (let* blocks :=
       filtered_blocks path keywords start_cell end_cell only_errors in
     match blocks with
     | [] => inr no_match
     | _ => inr (join newline blocks)
     end)
  with
  | inr response => response
  | inl e => "Error reading notebook: " ++ exn_str e
  end.

End Tool.

(** ** Vocabulary of the statements *)

(** Every character of [s] satisfies [P]. *)
Fixpoint all_chars (P : ascii -> bool) (s : string) : bool :=
  match s with
  | EmptyString => true
  | String c s' => P c && all_chars P s'
  end.

Definition not_char (c : ascii) : ascii -> bool :=
  fun d => if ascii_dec c d then false else true.

Definition sign_or_digit (c : ascii) : bool :=
  isdigit c || (nat_of_ascii c =? 45)%nat.

(** Whether [filter_by_keyword] appends [block]. *)
Definition keyword_hit (keywords : list string) (block : string) : bool :=
  existsb (fun k => contains (lower block) (lower k)) keywords.

(** Whether the scan of [filter_has_error] appends the block these
    [lines] come from. *)
Fixpoint error_verdict (has_error : bool) (lines : list string) : bool :=
  match lines with
  | [] => false
  | line :: rest =>
      if startswith line "[HAS_ERROR]"
      then Bool.eqb (has_error_flag line) has_error
      else error_verdict has_error rest
  end.

(** What [filter_by_cell_index] decides for one block: dropped, kept,
    or the [ValueError] of a header that holds no integer. *)
Definition index_verdict (start end_ : option Z) (block : string)
    : outcome bool :=
  let header := item (split block newline (Some 1%nat)) 0 in
  if negb (startswith header "[CELL") then inr false
  else
    let* idx := header_index header in
    inr (negb (match start with Some s => (idx <? s)%Z | None => false end)
         && negb (match end_ with Some e => (idx >=? e)%Z | None => false end)).

Fixpoint select_by_index (start end_ : option Z) (blocks : list string)
    : outcome (list string) :=
  match blocks with
  | [] => inr []
  | b :: rest =>
      let* keep := index_verdict start end_ b in
      let* kept := select_by_index start end_ rest in
      inr (if keep then b :: kept else kept)
  end.

(** [start <= idx < end_], each bound only when given. *)
Definition in_range (start end_ : option Z) (idx : Z) : bool :=
  match start with Some s => (s <=? idx)%Z | None => true end
  && match end_ with Some e => (idx <? e)%Z | None => true end.

(** [kept] holds no block more often than [blocks] does. *)
Definition no_more_copies (kept blocks : list string) : Prop :=
  forall b, (count_occ string_dec kept b <= count_occ string_dec blocks b)%nat.

(** The [lines] list when the loop of [format_outputs] ends. *)
Definition output_lines (outputs : list output) : list string :=
  fst (fold_left format_outputs_step outputs ([], false)).

(** What one record appends to [lines], and whether it sets
    [has_error]. *)
Definition record_lines (out : output) : list string :=
  fst (format_outputs_step ([], false) out).

Definition record_error (out : output) : bool :=
  snd (format_outputs_step ([], false) out).

(** A code cell with [RMSE] in its printed output only. *)
Definition rmse_cell : cell :=
  Cell "code" (TextStr "evaluate(model)") (Some 4)
       [Stream (TextStr ("RMSE: 0.5" ++ newline))].

(** The lines of a block, cut at line feeds as the filters cut its
    header off. *)
Definition block_lines (block : string) : list string :=
  split block newline None.

(** A code block from the blank line after its [[HAS_ERROR]] line on. *)
Definition code_block_tail (c : cell) : string :=
  newline ++ strip (normalize_text (source c)) ++ newline ++ newline
  ++ "[OUTPUT]" ++ newline
  ++ (if is_empty (fst (format_outputs (outputs c))) then "<NO OUTPUT>"
      else fst (format_outputs (outputs c)))
  ++ newline.

(** A markdown cell with the text [hello]. *)
Definition hello_markdown : cell := Cell "markdown" (TextStr "hello") None [].

(** Ten code cells, rendered at the positions 0 to 9. *)
Definition ten_blocks : list string :=
  map (fun i => format_cell (Cell "code" (TextStr "x = 1") (Some i) []) i)
      [0; 1; 2; 3; 4; 5; 6; 7; 8; 9].

(** A markdown cell whose text is a tag line. *)
Definition tag_markdown : cell :=
  Cell "markdown" (TextStr "[HAS_ERROR] True") None [].

(** A code cell that ran without error and printed a tag line. *)
Definition echo_cell : cell :=
  Cell "code" (TextStr "report()") (Some 1)
       [Stream (TextStr "[HAS_ERROR] True")].

(** ** The function map of [manual.py] *)

Section FunctionMap.

(** [pattern.findall(block)] for the compiled pattern of
    [build_function_cell_map]: the names the regular-expression engine
    captures in [block], in order. *)
Variable findall : string -> list string.

(** [for fn in matches: func_map[fn] = cell_index] *)
Fixpoint record_functions (matches : list string) (cell_index : Z)
    (func_map : gmap string Z) : gmap string Z :=
  match matches with
  | [] => func_map
  | fn :: rest => record_functions rest cell_index (<[fn := cell_index]> func_map)
  end.

Fixpoint build_function_cell_map_loop (blocks : list string)
    (func_map : gmap string Z) : outcome (gmap string Z) :=
  match blocks with
  | [] => inr func_map
  | block :: rest =>
      let header := item (split block newline (Some 1%nat)) 0 in
      if negb (startswith header "[CELL") then
        build_function_cell_map_loop rest func_map
      else
        let* cell_index := header_index header in
        build_function_cell_map_loop rest
          (record_functions (findall block) cell_index func_map)
  end.

Definition build_function_cell_map (blocks : list string)
    : outcome (gmap string Z) :=
  build_function_cell_map_loop blocks ∅.

End FunctionMap.

(** ** Nodes seen as cells *)

(** [f] on every element, in order, up to the first that raises. *)
Fixpoint traverse {A B} (f : A -> outcome B) (xs : list A)
    : outcome (list B) :=
  match xs with
  | [] => inr []
  | x :: rest =>
      let* y := f x in
      let* ys := traverse f rest in
      inr (y :: ys)
  end.

(** The fields [format_outputs] reads of one output node, in the order
    it reads them. *)
Definition output_view (out : Node.output) : outcome output :=
  let* otype := getattr (Node.output_type out) "output_type" in
  if (otype =? "stream")%string then
    let* text := getattr (Node.text out) "text" in
    inr (Stream text)
  else if (otype =? "execute_result")%string then
    let* data := getattr (Node.data out) "data" in
    inr (ExecuteResult data)
  else if (otype =? "display_data")%string then
    let* data := getattr (Node.data out) "data" in
    inr (DisplayData data)
  else if (otype =? "error")%string then
    let* ename := getattr (Node.ename out) "ename" in
    let* evalue := getattr (Node.evalue out) "evalue" in
    let* traceback := getattr (Node.traceback out) "traceback" in
    inr (Error ename evalue traceback)
  else inr (OtherOutput otype).

(** The fields [format_cell] reads of one cell node, in the order it
    reads them: [source] and [cell_type] of every cell, and of a code
    cell [outputs], what [format_outputs] reads of them, and
    [execution_count]. *)
Definition cell_view (c : Node.cell) : outcome cell :=
  let* source := getattr (Node.source c) "source" in
  let* ty := getattr (Node.cell_type c) "cell_type" in
  if (ty =? "code")%string then
    let* outs := getattr (Node.outputs c) "outputs" in
    let* outputs := traverse output_view outs in
    let* execution_count :=
      getattr (Node.execution_count c) "execution_count" in
    inr (Cell ty source execution_count outputs)
  else inr (Cell ty source None []).

(** The node made of the fields of an output, and of a cell; for a
    record of another type the node has its [output_type] only. *)
Definition node_of_output (out : output) : Node.output :=
  match out with
  | Stream text => Node.Output (Some "stream") (Some text) None None None None
  | ExecuteResult data =>
      Node.Output (Some "execute_result") None (Some data) None None None
  | DisplayData data =>
      Node.Output (Some "display_data") None (Some data) None None None
  | Error ename evalue traceback =>
      Node.Output (Some "error") None None (Some ename) (Some evalue)
        (Some traceback)
  | OtherOutput ty => Node.Output (Some ty) None None None None None
  end.

Definition node_of_cell (c : cell) : Node.cell :=
  Node.Cell (Some (cell_type c)) (Some (source c))
    (Some (execution_count c)) (Some (map node_of_output (outputs c))).

(** ** Vocabulary of the further properties *)

(** The cell types [format_cell] renders. *)
Definition is_rendered (c : cell) : bool :=
  (cell_type c =? "markdown")%string || (cell_type c =? "code")%string.

(** [enumerate(cells)], counting from [i]. *)
Fixpoint enumerate_from (i : Z) (cells : list cell) : list (Z * cell) :=
  match cells with
  | [] => []
  | c :: rest => (i, c) :: enumerate_from (i + 1) rest
  end.

(** What [read_notebook] joins for cells whose fields were all read:
    the blocks of the markdown and code cells, those with a keyword
    when keywords are given, none of them when a bound is given, and of
    these the ones the error filter keeps when a target is given. *)
Definition expected_blocks (cells : list cell)
    (keywords : option keywords_arg) (start_cell end_cell : option Z)
    (only_errors : option bool) : list string :=
  let rendered :=
    map (fun ic => format_cell (snd ic) (fst ic))
      (List.filter (fun ic => is_rendered (snd ic)) (enumerate_from 0 cells)) in
  let matching :=
    match keywords with
    | Some kws =>
        if truthy_keywords keywords
        then List.filter (keyword_hit (keyword_list kws)) rendered
        else rendered
    | None => rendered
    end in
  let ranged :=
    if is_given start_cell || is_given end_cell then [] else matching in
  match only_errors with
  | Some target =>
      List.filter (fun b => error_verdict target (splitlines b)) ranged
  | None => ranged
  end.

(** The names of the fields the renderers read. *)
Definition field_names : list string :=
  ["source"; "cell_type"; "outputs"; "execution_count"; "output_type";
   "text"; "data"; "ename"; "evalue"; "traceback"].

Definition is_error (out : output) : bool :=
  match out with Error _ _ _ => true | _ => false end.

(** The records [format_outputs] passes over: a stream whose text is
    blank, display data without a [text/plain] entry, and any record of
    another type. *)
Definition silent (out : output) : bool :=
  match out with
  | Stream text => is_empty (strip (normalize_text text))
  | ExecuteResult data | DisplayData data =>
      match default (∅ : gmap string string) data !! "text/plain" with
      | Some _ => false
      | None => true
      end
  | Error _ _ _ => false
  | OtherOutput _ => true
  end.

(** A rendered block from its header on: the block without the line
    feed it starts with. *)
Definition from_header (block : string) : string := drop 1 block.

(** [block.split("\n", 1)[0]], the line the filters take for the
    header. *)
Definition header_line (block : string) : string :=
  item (split block newline (Some 1%nat)) 0.

(** A stand-in for the pattern that finds the one name [load]. *)
Definition finds_load (block : string) : list string :=
  if contains block "def load(" then ["load"] else [].

(** Three blocks with their header on the first line. *)
Definition load_blocks : list string :=
  ["[CELL 2 | CODE]" ++ newline ++ "def load(p):";
   "[CELL 5 | CODE]" ++ newline ++ "def load(q):";
   "[CELL 9 | CODE]" ++ newline ++ "print(1)"].

(** The header [format_cell] writes for a cell of type [ty]. *)
Definition header_of (ty : string) (index : Z) : string :=
  "[CELL " ++ str_int index
  ++ (if (ty =? "markdown")%string then " | MARKDOWN]" else " | CODE]").

(** ** Facts about the string primitives *)

Section StringFacts.

Lemma append_nil_r (s : string) : s ++ "" = s.
Proof. induction s as [|c s IH]; simpl; congruence. Qed.

Lemma append_assoc (a b c : string) : (a ++ b) ++ c = a ++ b ++ c.
Proof. induction a as [|x a IH]; simpl; congruence. Qed.

Lemma length_append (a b : string) :
  String.length (a ++ b) = (String.length a + String.length b)%nat.
Proof. induction a as [|x a IH]; simpl; congruence. Qed.

Lemma lower_append (a b : string) : lower (a ++ b) = lower a ++ lower b.
Proof. induction a as [|x a IH]; simpl; congruence. Qed.

Lemma prefix_append (p s : string) : String.prefix p (p ++ s) = true.
Proof.
  induction p as [|c p IH]; simpl.
  - now destruct s.
  - destruct (ascii_dec c c); [exact IH | congruence].
Qed.

Lemma prefix_split (p s : string) :
  String.prefix p s = true -> s = p ++ drop (String.length p) s.
Proof.
  revert s; induction p as [|c p IH]; intros s H.
  - reflexivity.
  - destruct s as [|d s]; simpl in *; [discriminate|].
    destruct (ascii_dec c d) as [->|]; [|discriminate].
    f_equal. now apply IH.
Qed.

Lemma drop_append (p s : string) : drop (String.length p) (p ++ s) = s.
Proof. induction p as [|c p IH]; simpl; auto. Qed.

Lemma find_sub_unfold (sep s : string) :
  find_sub sep s =
  if String.prefix sep s then Some ("", drop (String.length sep) s)
  else match s with
       | EmptyString => None
       | String c s' =>
           match find_sub sep s' with
           | Some (a, b) => Some (String c a, b)
           | None => None
           end
       end.
Proof. destruct s; reflexivity. Qed.

(** [find_sub] cuts [s] around an occurrence of [sep]. *)
Lemma find_sub_Some (sep s a b : string) :
  find_sub sep s = Some (a, b) -> s = a ++ sep ++ b.
Proof.
  revert a b; induction s as [|c s IH]; intros a b H;
    rewrite find_sub_unfold in H;
    destruct (String.prefix sep _) eqn:E;
    try (injection H as <- <-; simpl; now apply prefix_split);
    try discriminate.
  destruct (find_sub sep s) as [[a' b']|] eqn:F; [|discriminate].
  injection H as <- <-. simpl. f_equal. now apply IH.
Qed.

(** ... and finds one whenever there is one. *)
Lemma find_sub_complete (sep a b : string) :
  exists a' b', find_sub sep (a ++ sep ++ b) = Some (a', b').
Proof.
  induction a as [|c a IH]; rewrite find_sub_unfold.
  - simpl. rewrite prefix_append. eauto.
  - destruct (String.prefix sep _); eauto.
    simpl. destruct IH as (a' & b' & ->). eauto.
Qed.

(** Python's [p in s]: [p] occurs somewhere in [s]. *)
Lemma contains_spec (s p : string) :
  contains s p = true <-> exists pre post, s = pre ++ p ++ post.
Proof.
  unfold contains; split.
  - destruct (find_sub p s) as [[a b]|] eqn:F; [|discriminate].
    intros _. exists a, b. now apply find_sub_Some.
  - intros (pre & post & ->).
    destruct (find_sub_complete p pre post) as (a' & b' & ->). reflexivity.
Qed.

Lemma all_chars_impl (P Q : ascii -> bool) (s : string) :
  (forall c, P c = true -> Q c = true) ->
  all_chars P s = true -> all_chars Q s = true.
Proof.
  intros HPQ; induction s as [|c s IH]; simpl; [trivial|].
  rewrite !andb_true_iff. intros [Hc Hs]. auto.
Qed.

Lemma all_chars_append (P : ascii -> bool) (a b : string) :
  all_chars P (a ++ b) = all_chars P a && all_chars P b.
Proof.
  induction a as [|c a IH]; simpl; [reflexivity|].
  now rewrite IH, andb_assoc.
Qed.

(** A one-character separator is found at its first occurrence. *)
Lemma find_sub_char (c : ascii) (l rest : string) :
  all_chars (not_char c) l = true ->
  find_sub (String c "") (l ++ String c rest) = Some (l, rest).
Proof.
  induction l as [|d l IH]; intros H; rewrite find_sub_unfold; simpl.
  - destruct (ascii_dec c c); [|congruence]. now destruct rest.
  - simpl in H. apply andb_true_iff in H as [Hd Hl].
    unfold not_char in Hd. destruct (ascii_dec c d); [discriminate|].
    now rewrite (IH Hl).
Qed.

Lemma find_sub_char_None (c : ascii) (l : string) :
  all_chars (not_char c) l = true -> find_sub (String c "") l = None.
Proof.
  induction l as [|d l IH]; intros H; rewrite find_sub_unfold; simpl.
  - reflexivity.
  - simpl in H. apply andb_true_iff in H as [Hd Hl].
    unfold not_char in Hd. destruct (ascii_dec c d); [discriminate|].
    now rewrite (IH Hl).
Qed.

(** A cut leaves strictly less text behind it. *)
Lemma find_sub_shorter (sep s a b : string) :
  sep <> "" -> find_sub sep s = Some (a, b) ->
  (String.length b < String.length s)%nat.
Proof.
  intros Hsep H. apply find_sub_Some in H. subst s.
  rewrite !length_append. destruct sep; [congruence|]. simpl. lia.
Qed.

(** [split] never runs out of rounds: more of them change nothing. *)
Lemma split_fuel_enough (sep : string) (fuel : nat) :
  sep <> "" ->
  forall (s : string) (maxsplit : option nat),
    (String.length s < fuel)%nat ->
    split_fuel fuel sep maxsplit s = split s sep maxsplit.
Proof.
  intros Hsep. unfold split.
  assert (G : forall f1 f2 s m,
             (String.length s < f1)%nat -> (String.length s < f2)%nat ->
             split_fuel f1 sep m s = split_fuel f2 sep m s).
  { induction f1 as [|f1 IH]; intros f2 s m H1 H2; [lia|].
    destruct f2 as [|f2]; [lia|]. simpl.
    destruct m as [[|k]|]; try reflexivity;
      (destruct (find_sub sep s) as [[a b]|] eqn:F; [|reflexivity]);
      f_equal; pose proof (find_sub_shorter _ _ _ _ Hsep F);
      apply IH; lia. }
  intros s m H. apply G; lia.
Qed.

(** Splitting at line feeds, a line at a time. *)
Lemma split_line (l rest : string) :
  all_chars (not_char LF) l = true ->
  split (l ++ newline ++ rest) newline None = l :: split rest newline None.
Proof.
  intros H. unfold split at 1. cbn [split_fuel].
  change (newline ++ rest) with (String LF rest).
  change newline with (String LF "") at 1.
  rewrite (find_sub_char LF l rest H). cbn [option_map]. f_equal.
  apply split_fuel_enough; [discriminate|].
  rewrite length_append. simpl. lia.
Qed.

Lemma split_last_line (l : string) :
  all_chars (not_char LF) l = true -> split l newline None = [l].
Proof.
  intros H. unfold split. cbn [split_fuel].
  change newline with (String LF "").
  now rewrite (find_sub_char_None LF l H).
Qed.

(** The text before the first line feed, which the filters call the
    header. *)
Lemma split_head_newline (rest : string) :
  item (split (newline ++ rest) newline (Some 1%nat)) 0 = "".
Proof. unfold split. simpl. now destruct rest. Qed.

(** [s.split(...)[0]] exists. *)
Lemma split_first (s sep : string) (maxsplit : option nat) :
  exists x xs, split s sep maxsplit = x :: xs.
Proof.
  unfold split. cbn [split_fuel].
  destruct maxsplit as [[|k]|]; eauto;
    destruct (find_sub sep s) as [[a b]|]; eauto.
Qed.

(** [header.split("[CELL")[1]] exists behind the [startswith] guard. *)
Lemma split_after_marker (header : string) :
  startswith header "[CELL" = true ->
  exists x, nth_error (split header "[CELL" None) 1 = Some x.
Proof.
  intros H. unfold split. cbn [split_fuel].
  rewrite find_sub_unfold. unfold startswith in H. rewrite H.
  cbn [option_map nth_error].
  destruct (String.length header) as [|n]; cbn [split_fuel]; eauto.
  destruct (find_sub _ _) as [[a b]|]; simpl; eauto.
Qed.

(** [line.split("]", 1)[1]] exists behind the [startswith] guard. *)
Lemma split_after_bracket (line : string) :
  startswith line "[HAS_ERROR]" = true ->
  exists x, nth_error (split line "]" (Some 1%nat)) 1 = Some x.
Proof.
  intros H. apply prefix_split in H. rewrite H.
  change ("[HAS_ERROR]" ++ drop (String.length "[HAS_ERROR]") line)
    with ("[HAS_ERROR" ++ String "]" (drop 11 line)).
  unfold split. cbn [split_fuel].
  rewrite (find_sub_char "]" "[HAS_ERROR" _ eq_refl).
  destruct (String.length _); simpl; eauto.
Qed.

Lemma splitlines_no_break (c : ascii) (s : string) :
  islinebreak c = false ->
  splitlines (String c s) =
  match splitlines s with
  | [] => [String c ""]
  | l :: ls => String c l :: ls
  end.
Proof. intros H. simpl. now rewrite H. Qed.

Lemma splitlines_line (l rest : string) :
  all_chars (fun c => negb (islinebreak c)) l = true ->
  splitlines (l ++ newline ++ rest) = l :: splitlines rest.
Proof.
  induction l as [|c l IH]; intros H.
  - reflexivity.
  - simpl in H. apply andb_true_iff in H as [Hc Hl].
    apply negb_true_iff in Hc.
    change (String c l ++ newline ++ rest)
      with (String c (l ++ newline ++ rest)).
    now rewrite (splitlines_no_break _ _ Hc), (IH Hl).
Qed.

Lemma string_of_uint_digits (d : Decimal.uint) :
  all_chars sign_or_digit (NilEmpty.string_of_uint d) = true.
Proof. induction d; simpl; auto. Qed.

(** [str(n)] is a sign and digits: it holds no line break. *)
Lemma str_int_chars (n : Z) : all_chars sign_or_digit (str_int n) = true.
Proof.
  unfold str_int. destruct (Z.to_int n); simpl;
    apply string_of_uint_digits.
Qed.

Lemma sign_or_digit_not_LF (c : ascii) :
  sign_or_digit c = true -> not_char LF c = true.
Proof.
  unfold not_char. destruct (ascii_dec LF c) as [<-|]; [|reflexivity].
  vm_compute. congruence.
Qed.

Lemma sign_or_digit_not_break (c : ascii) :
  sign_or_digit c = true -> negb (islinebreak c) = true.
Proof.
  destruct c as [[] [] [] [] [] [] [] []]; vm_compute; congruence.
Qed.

End StringFacts.

(** ** The filter loops as selections *)

Section FilterFacts.

Lemma filter_by_keyword_loop_filter (keywords blocks result : list string) :
  filter_by_keyword_loop keywords blocks result
  = (result ++ List.filter (keyword_hit keywords) blocks)%list.
Proof.
  revert result; induction blocks as [|b bs IH]; intros result; simpl.
  - now rewrite app_nil_r.
  - rewrite IH. unfold keyword_hit at 2.
    destruct (existsb _ keywords); [now rewrite <- app_assoc | reflexivity].
Qed.

Lemma has_error_scan_verdict has_error block lines result :
  has_error_scan has_error block lines result
  = if error_verdict has_error lines then (result ++ [block])%list else result.
Proof.
  induction lines as [|line rest IH]; simpl; [reflexivity|].
  destruct (startswith line "[HAS_ERROR]"); [reflexivity | exact IH].
Qed.

Lemma filter_has_error_loop_filter has_error (blocks result : list string) :
  filter_has_error_loop has_error blocks result
  = (result
     ++ List.filter (fun b => error_verdict has_error (splitlines b)) blocks)%list.
Proof.
  revert result; induction blocks as [|b bs IH]; intros result; simpl.
  - now rewrite app_nil_r.
  - rewrite IH, has_error_scan_verdict.
    destruct (error_verdict has_error (splitlines b));
      [now rewrite <- app_assoc | reflexivity].
Qed.

(** The first tagged line decides the verdict. *)
Lemma error_verdict_first has_error (lines : list string) :
  error_verdict has_error lines = true <->
  exists pre line post,
    lines = (pre ++ line :: post)%list
    /\ Forall (fun l => startswith l "[HAS_ERROR]" = false) pre
    /\ startswith line "[HAS_ERROR]" = true
    /\ has_error_flag line = has_error.
Proof.
  induction lines as [|l ls IH]; simpl.
  - split; [discriminate|]. intros (pre & line & post & E & _).
    now destruct pre.
  - destruct (startswith l "[HAS_ERROR]") eqn:T.
    + split.
      * intros H. exists [], l, ls. repeat split; auto.
        now apply eqb_prop.
      * intros (pre & line & post & E & Hpre & Hline & Hflag).
        destruct pre as [|p pre]; simpl in E; injection E as -> ->.
        -- subst has_error. apply eqb_reflx.
        -- inversion Hpre; congruence.
    + rewrite IH. split.
      * intros (pre & line & post & -> & Hpre & Hline & Hflag).
        exists (l :: pre), line, post. repeat split; auto.
      * intros (pre & line & post & E & Hpre & Hline & Hflag).
        destruct pre as [|p pre]; simpl in E; injection E as -> ->.
        -- congruence.
        -- exists pre, line, post. inversion Hpre; auto.
Qed.

Lemma filter_by_cell_index_loop_select start end_ (blocks result : list string) :
  filter_by_cell_index_loop start end_ blocks result
  = let* kept := select_by_index start end_ blocks in
    inr (result ++ kept)%list.
Proof.
  revert result; induction blocks as [|b bs IH]; intros result; simpl.
  - now rewrite app_nil_r.
  - unfold index_verdict.
    destruct (negb (startswith _ "[CELL")); simpl.
    + rewrite IH. now destruct (select_by_index start end_ bs).
    + destruct (header_index _) as [e|idx]; simpl; [reflexivity|].
      destruct (match start with Some s => (idx <? s)%Z | None => false end);
        simpl; [rewrite IH; now destruct (select_by_index start end_ bs)|].
      destruct (match end_ with Some e => (idx >=? e)%Z | None => false end);
        simpl; rewrite IH; destruct (select_by_index start end_ bs);
        simpl; try reflexivity.
      now rewrite <- app_assoc.
Qed.

Lemma filter_by_cell_index_select start end_ (blocks : list string) :
  filter_by_cell_index blocks start end_ = select_by_index start end_ blocks.
Proof.
  unfold filter_by_cell_index. rewrite filter_by_cell_index_loop_select.
  now destruct (select_by_index start end_ blocks).
Qed.

(** A selection that returns kept exactly the blocks with verdict
    [true], and every block had a verdict. *)
Lemma select_by_index_inr start end_ (blocks kept : list string) :
  select_by_index start end_ blocks = inr kept ->
  kept = List.filter
           (fun b => match index_verdict start end_ b with
                     | inr k => k | inl _ => false end) blocks
  /\ Forall (fun b => exists k, index_verdict start end_ b = inr k) blocks.
Proof.
  revert kept; induction blocks as [|b bs IH]; intros kept; simpl.
  - intros [= <-]. auto.
  - destruct (index_verdict start end_ b) as [e|k] eqn:V; simpl;
      [discriminate|].
    destruct (select_by_index start end_ bs) as [e|r]; simpl; [discriminate|].
    intros [= <-]. destruct (IH r eq_refl) as [-> HF].
    split; [now destruct k | constructor; eauto].
Qed.

(** A selection that raises met a block whose header holds no integer. *)
Lemma select_by_index_inl start end_ (blocks : list string) (e : exn) :
  select_by_index start end_ blocks = inl e ->
  exists b, In b blocks /\ index_verdict start end_ b = inl e.
Proof.
  induction blocks as [|b bs IH]; simpl; [discriminate|].
  destruct (index_verdict start end_ b) as [e'|k] eqn:V; simpl.
  - intros [= <-]. eauto.
  - destruct (select_by_index start end_ bs) as [e'|r]; simpl; [|discriminate].
    intros [= <-]. destruct (IH eq_refl) as (b' & Hin & Hb'). eauto.
Qed.

Lemma select_by_index_total start end_ (blocks : list string) :
  Forall (fun b => exists k, index_verdict start end_ b = inr k) blocks ->
  exists kept, select_by_index start end_ blocks = inr kept.
Proof.
  induction 1 as [|b bs [k Hk] _ [kept IH]]; simpl; [eauto|].
  rewrite Hk, IH. simpl. eauto.
Qed.

Lemma filter_sublist {A} (f : A -> bool) (l : list A) :
  sublist (List.filter f l) l.
Proof.
  induction l as [|x l IH]; simpl; [constructor|].
  destruct (f x); now constructor.
Qed.

Lemma filter_idem {A} (f : A -> bool) (l : list A) :
  List.filter f (List.filter f l) = List.filter f l.
Proof.
  induction l as [|x l IH]; simpl; [reflexivity|].
  destruct (f x) eqn:E; simpl; [rewrite E|]; congruence.
Qed.

Lemma sublist_no_more_copies (kept blocks : list string) :
  sublist kept blocks -> no_more_copies kept blocks.
Proof.
  intros H b. induction H as [|x l1 l2 _ IH|x l1 l2 _ IH]; simpl.
  - lia.
  - destruct (string_dec x b); lia.
  - destruct (string_dec x b); lia.
Qed.

End FilterFacts.

(** ** Nodes and cells: the attribute reads set apart *)

Section NodeFacts.

(** One round of the loop over output nodes: the reads of
    [output_view], then the round of the loop over outputs. *)
Lemma node_format_outputs_round (out : Node.output) (rest : list Node.output)
    (lines : list string) (has_error : bool) :
  Node.format_outputs_loop (out :: rest) lines has_error
  = (let* typed := output_view out in
     Node.format_outputs_loop rest
       (fst (format_outputs_step (lines, has_error) typed))
       (snd (format_outputs_step (lines, has_error) typed))).
Proof.
  cbn [Node.format_outputs_loop]. unfold output_view.
  destruct (Node.output_type out) as [otype|]; cbn [getattr bind];
    [|reflexivity].
  destruct (otype =? "stream")%string.
  { destruct (Node.text out) as [text|]; cbn [getattr bind]; [|reflexivity].
    cbn [format_outputs_step].
    now destruct (is_empty (strip (normalize_text text))). }
  destruct (otype =? "execute_result")%string; cbn [orb].
  { destruct (Node.data out) as [data|]; cbn [getattr bind]; [|reflexivity].
    cbn [format_outputs_step].
    now destruct (default ∅ data !! "text/plain"). }
  destruct (otype =? "display_data")%string.
  { destruct (Node.data out) as [data|]; cbn [getattr bind]; [|reflexivity].
    cbn [format_outputs_step].
    now destruct (default ∅ data !! "text/plain"). }
  destruct (otype =? "error")%string; [|reflexivity].
  destruct (Node.ename out); cbn [getattr bind]; [|reflexivity].
  destruct (Node.evalue out); cbn [getattr bind]; [|reflexivity].
  now destruct (Node.traceback out).
Qed.

(** The loop over output nodes reads the fields of each node in turn
    and then does what the loop over outputs does. *)
Lemma node_format_outputs_loop (outs : list Node.output)
    (lines : list string) (has_error : bool) :
  Node.format_outputs_loop outs lines has_error
  = (let* typed := traverse output_view outs in
     inr (fold_left format_outputs_step typed (lines, has_error))).
Proof.
  revert lines has_error; induction outs as [|out rest IH];
    intros lines has_error; [reflexivity|].
  rewrite node_format_outputs_round. cbn [traverse].
  destruct (output_view out) as [e|typed]; cbn [bind]; [reflexivity|].
  rewrite IH. destruct (traverse output_view rest); cbn [bind fold_left];
    [reflexivity|].
  now destruct (format_outputs_step (lines, has_error) typed).
Qed.

Lemma node_format_outputs (outs : list Node.output) :
  Node.format_outputs outs
  = (let* typed := traverse output_view outs in inr (format_outputs typed)).
Proof.
  unfold Node.format_outputs. rewrite node_format_outputs_loop.
  destruct (traverse output_view outs) as [e|typed]; cbn [bind];
    [reflexivity|].
  unfold format_outputs.
  now destruct (fold_left format_outputs_step typed ([], false)).
Qed.

(** [format_cell] on a node reads the fields and then renders the cell
    they make up. *)
Lemma node_format_cell (c : Node.cell) (index : Z) :
  Node.format_cell c index
  = (let* typed := cell_view c in inr (format_cell typed index)).
Proof.
  unfold Node.format_cell, cell_view.
  destruct (Node.source c) as [src|]; cbn [getattr bind]; [|reflexivity].
  destruct (Node.cell_type c) as [ty|]; cbn [getattr bind]; [|reflexivity].
  destruct (ty =? "markdown")%string eqn:M.
  - apply String.eqb_eq in M. subst ty. reflexivity.
  - destruct (ty =? "code")%string eqn:K.
    + destruct (Node.outputs c) as [outs|]; cbn [getattr bind];
        [|reflexivity].
      rewrite node_format_outputs.
      destruct (traverse output_view outs) as [e|typed]; cbn [bind];
        [reflexivity|].
      destruct (Node.execution_count c) as [ec|]; cbn [getattr bind];
        [|reflexivity].
      unfold format_cell.
      cbn [cell_type outputs execution_count source].
      rewrite M, K. now destruct (format_outputs typed).
    + cbn [bind]. unfold format_cell. cbn [cell_type]. now rewrite M, K.
Qed.

Lemma node_render_cells (nb : list Node.cell) (i : Z) (blocks : list string) :
  Node.render_cells nb i blocks
  = (let* cells := traverse cell_view nb in
     inr (render_cells cells i blocks)).
Proof.
  revert i blocks; induction nb as [|c nb IH]; intros i blocks;
    [reflexivity|].
  cbn [Node.render_cells traverse]. rewrite node_format_cell.
  destruct (cell_view c) as [e|typed]; cbn [bind]; [reflexivity|].
  rewrite IH. now destruct (traverse cell_view nb).
Qed.

(** The loader: load, read the fields of every cell, render. *)
Lemma notebook_to_llm_blocks_view
    (nb_read : string -> outcome notebook) (path : string) :
  notebook_to_llm_blocks nb_read path
  = (let* nb := nb_read path in
     let* cells := traverse cell_view nb in
     inr (render_cells cells 0 [])).
Proof.
  unfold notebook_to_llm_blocks.
  destruct (nb_read path) as [e|nb]; cbn [bind]; [reflexivity|].
  apply node_render_cells.
Qed.

End NodeFacts.

(** ** Text Normalizer and Output Renderer *)

Lemma join_empty_sep (xs : list string) :
  join "" xs = fold_right String.append "" xs.
Proof.
  unfold join. induction xs as [|x xs IH]; simpl; [reflexivity|].
  destruct xs as [|y ys]; [now rewrite append_nil_r|].
  now rewrite <- IH.
Qed.

(** C7: [normalize_text] is defined on every value of its domain: it is
    the empty string for an absent value, the string itself for a
    string, and the fragments appended in order with nothing between
    them for a list; so [["a"; "b"; "c"]] becomes ["abc"] and [None]
    becomes [""]. *)
Theorem normalize_text_total :
  normalize_text TextNone = ""
  /\ (forall s, normalize_text (TextStr s) = s)
  /\ (forall fragments,
        normalize_text (TextList fragments)
        = fold_right String.append "" fragments)
  /\ normalize_text (TextList ["a"; "b"; "c"]) = "abc".
Proof.
  repeat split.
  - intros s. now destruct s.
  - intros fragments. apply join_empty_sep.
Qed.

Lemma format_outputs_step_app lines has_error out :
  format_outputs_step (lines, has_error) out
  = ((lines ++ record_lines out)%list, has_error || record_error out).
Proof.
  unfold record_lines, record_error.
  destruct out as [text|data|data|en ev tb|ty]; simpl.
  - destruct (is_empty _); simpl; now rewrite ?app_nil_r, orb_false_r.
  - destruct (_ !! _); simpl; now rewrite ?app_nil_r, orb_false_r.
  - destruct (_ !! _); simpl; now rewrite ?app_nil_r, orb_false_r.
  - now rewrite orb_true_r, <- app_assoc.
  - now rewrite app_nil_r, orb_false_r.
Qed.

Lemma format_outputs_loop outputs lines has_error :
  fold_left format_outputs_step outputs (lines, has_error)
  = ((lines ++ concat (map record_lines outputs))%list,
     has_error || existsb record_error outputs).
Proof.
  revert lines has_error; induction outputs as [|o os IH];
    intros lines has_error; cbn [fold_left map concat existsb].
  - now rewrite app_nil_r, orb_false_r.
  - now rewrite format_outputs_step_app, IH, <- app_assoc, orb_assoc.
Qed.

Lemma format_outputs_unfold outputs :
  format_outputs outputs
  = (join newline (output_lines outputs), existsb record_error outputs).
Proof.
  unfold format_outputs, output_lines.
  now rewrite format_outputs_loop.
Qed.

(** C6: the single error record [ValueError]/[bad] with traceback
    [line1], [line2] renders as the four lines [ERROR:],
    [ValueError: bad], [line1], [line2] with [has_error = True]; and
    wherever an error record stands among the outputs, it adds the
    line [ERROR:], the line [<ename>: <evalue>] and its traceback
    lines unchanged and in order, and [has_error] is [True]. *)
Theorem format_outputs_error_record :
  format_outputs [Error "ValueError" "bad" ["line1"; "line2"]]
  = ("ERROR:" ++ newline ++ "ValueError: bad" ++ newline
     ++ "line1" ++ newline ++ "line2", true)
  /\ forall before ename evalue traceback after,
       format_outputs (before ++ Error ename evalue traceback :: after)%list
       = (join newline
            (output_lines before
             ++ ["ERROR:"; ename ++ ": " ++ evalue]%string
             ++ traceback ++ output_lines after)%list,
          true).
Proof.
  split; [reflexivity|].
  intros before ename evalue traceback after.
  rewrite format_outputs_unfold. unfold output_lines.
  rewrite !format_outputs_loop. simpl fst.
  rewrite map_app, concat_app, existsb_app. simpl.
  now rewrite orb_true_r.
Qed.

(** ** Block Filters: order, copies, idempotence, keywords *)

Lemma index_verdict_inl start end_ (block : string) (e : exn) :
  index_verdict start end_ block = inl e ->
  startswith (item (split block newline (Some 1%nat)) 0) "[CELL" = true
  /\ header_index (item (split block newline (Some 1%nat)) 0) = inl e.
Proof.
  unfold index_verdict.
  destruct (startswith _ "[CELL"); simpl; [|discriminate].
  destruct (header_index _); simpl; [|discriminate].
  intros [= <-]. auto.
Qed.

(** Where the header holds an integer, the verdict is the half-open
    range test on it. *)
Lemma index_verdict_range start end_ (block : string) (idx : Z) :
  startswith (item (split block newline (Some 1%nat)) 0) "[CELL" = true ->
  header_index (item (split block newline (Some 1%nat)) 0) = inr idx ->
  index_verdict start end_ block = inr (in_range start end_ idx).
Proof.
  intros H1 H2. unfold index_verdict, in_range. rewrite H1, H2. simpl.
  f_equal. f_equal.
  - destruct start as [s|]; [|reflexivity].
    rewrite Z.ltb_antisym. apply negb_involutive.
  - destruct end_ as [e|]; [|reflexivity].
    rewrite Z.geb_leb, Z.leb_antisym. apply negb_involutive.
Qed.

(** C8: each filter returns its input with some blocks left out: what
    it returns is a subsequence of [blocks], in the same order, with no
    block more often than [blocks] has it.  [filter_by_cell_index] is
    the one filter that can raise, and does so only at a block whose
    [[CELL] header holds no integer. *)
Theorem filters_return_subsequence :
  forall (blocks : list string) (keywords : keywords_arg)
         (start end_ : option Z) (has_error : bool),
    (sublist (filter_by_keyword blocks keywords) blocks
     /\ no_more_copies (filter_by_keyword blocks keywords) blocks)
    /\ match filter_by_cell_index blocks start end_ with
       | inr kept => sublist kept blocks /\ no_more_copies kept blocks
       | inl e =>
           exists b, In b blocks
             /\ header_index (item (split b newline (Some 1%nat)) 0) = inl e
       end
    /\ (sublist (filter_has_error blocks has_error) blocks
        /\ no_more_copies (filter_has_error blocks has_error) blocks).
Proof.
  intros blocks keywords start end_ has_error.
  assert (K : sublist (filter_by_keyword blocks keywords) blocks).
  { unfold filter_by_keyword. rewrite filter_by_keyword_loop_filter.
    apply filter_sublist. }
  assert (E : sublist (filter_has_error blocks has_error) blocks).
  { unfold filter_has_error. rewrite filter_has_error_loop_filter.
    apply filter_sublist. }
  repeat split; auto using sublist_no_more_copies.
  rewrite filter_by_cell_index_select.
  destruct (select_by_index start end_ blocks) as [e|kept] eqn:S.
  - destruct (select_by_index_inl _ _ _ _ S) as (b & Hin & Hb).
    exists b. split; [exact Hin|]. now apply index_verdict_inl in Hb.
  - destruct (select_by_index_inr _ _ _ _ S) as [-> _].
    split; [|apply sublist_no_more_copies]; apply filter_sublist.
Qed.

Lemma select_by_index_kept start end_ (blocks : list string) :
  Forall (fun b => index_verdict start end_ b = inr true) blocks ->
  select_by_index start end_ blocks = inr blocks.
Proof.
  induction 1 as [|b bs Hb _ IH]; simpl; [reflexivity|].
  now rewrite Hb, IH.
Qed.

(** C9: filtering a second time with the same arguments changes
    nothing; for [filter_by_cell_index] this covers the case where it
    raises: the second pass then never runs, and where the first pass
    returns, the second returns the same list. *)
Theorem filters_idempotent :
  forall (blocks : list string) (keywords : keywords_arg)
         (start end_ : option Z) (has_error : bool),
    filter_by_keyword (filter_by_keyword blocks keywords) keywords
    = filter_by_keyword blocks keywords
    /\ (let* kept := filter_by_cell_index blocks start end_ in
        filter_by_cell_index kept start end_)
       = filter_by_cell_index blocks start end_
    /\ filter_has_error (filter_has_error blocks has_error) has_error
       = filter_has_error blocks has_error.
Proof.
  intros blocks keywords start end_ has_error. repeat split.
  - unfold filter_by_keyword.
    rewrite !filter_by_keyword_loop_filter. simpl. apply filter_idem.
  - rewrite filter_by_cell_index_select.
    destruct (select_by_index start end_ blocks) as [e|kept] eqn:S;
      simpl; [reflexivity|].
    rewrite filter_by_cell_index_select.
    apply select_by_index_kept.
    destruct (select_by_index_inr _ _ _ _ S) as [-> HF].
    apply List.Forall_forall. intros b Hb. apply filter_In in Hb as [Hin Hk].
    rewrite List.Forall_forall in HF. destruct (HF b Hin) as [k Hv].
    rewrite Hv in Hk. now subst k.
  - unfold filter_has_error.
    rewrite !filter_has_error_loop_filter. simpl. apply filter_idem.
Qed.

Lemma keyword_hit_spec (keywords : list string) (block : string) :
  keyword_hit keywords block = true <->
  exists k, In k keywords
    /\ exists pre post, lower block = pre ++ lower k ++ post.
Proof.
  unfold keyword_hit. rewrite existsb_exists.
  split; intros (k & Hin & H); exists k; (split; [exact Hin|]);
    now apply contains_spec.
Qed.

(** C5: [filter_by_keyword] keeps a block exactly when one of the
    keywords, lowered, occurs in the lowered text of the whole block; a
    single string stands for the list of that one keyword.  A code
    block with [RMSE] only in its output is kept for [rmse], and a
    block is found through its header as well. *)
Theorem filter_by_keyword_spec :
  (forall (blocks : list string) (keywords : keywords_arg) (block : string),
     In block (filter_by_keyword blocks keywords) <->
     In block blocks
     /\ exists k, In k (keyword_list keywords)
          /\ exists pre post, lower block = pre ++ lower k ++ post)
  /\ (forall k, keyword_list (KwStr k) = [k])
  /\ (forall ks, keyword_list (KwList ks) = ks)
  /\ contains (lower (normalize_text (source rmse_cell))) "rmse" = false
  /\ filter_by_keyword [format_cell rmse_cell 7] (KwStr "rmse")
     = [format_cell rmse_cell 7]
  /\ filter_by_keyword [format_cell rmse_cell 7] (KwList ["arima"; "Cell 7 | Code"])
     = [format_cell rmse_cell 7].
Proof.
  split; [|repeat split; reflexivity].
  intros blocks keywords block. unfold filter_by_keyword.
  rewrite filter_by_keyword_loop_filter. simpl.
  now rewrite filter_In, keyword_hit_spec.
Qed.

(** ** Cell Renderer: the layout of a block *)

Lemma format_cell_shape (c : cell) (index : Z) :
  format_cell c index = ""
  \/ exists rest, format_cell c index = newline ++ rest.
Proof.
  unfold format_cell.
  destruct (cell_type c =? "markdown")%string; [eauto|].
  destruct (cell_type c =? "code")%string; [|auto].
  destruct (format_outputs (outputs c)). eauto.
Qed.

Lemma format_cell_header_empty (c : cell) (index : Z) :
  item (split (format_cell c index) newline (Some 1%nat)) 0 = "".
Proof.
  destruct (format_cell_shape c index) as [->|[rest ->]];
    [reflexivity | apply split_head_newline].
Qed.

Lemma format_cell_dropped start end_ (c : cell) (index : Z) :
  index_verdict start end_ (format_cell c index) = inr false.
Proof. unfold index_verdict. now rewrite format_cell_header_empty. Qed.

Lemma select_by_index_none start end_ (blocks : list string) :
  Forall (fun b => index_verdict start end_ b = inr false) blocks ->
  select_by_index start end_ blocks = inr [].
Proof.
  induction 1 as [|b bs Hb _ IH]; simpl; [reflexivity|].
  now rewrite Hb, IH.
Qed.

Lemma render_cells_Forall (P : string -> Prop) :
  (forall c i, P (format_cell c i)) ->
  forall cells i blocks, Forall P blocks -> Forall P (render_cells cells i blocks).
Proof.
  intros HP. induction cells as [|c cells IH]; intros i blocks H; simpl.
  - exact H.
  - apply IH. destruct (is_empty _); [exact H|].
    apply Forall_app; auto.
Qed.

(** C10: whatever [format_cell] returns is empty or begins with a line
    feed, so the text before its first line feed is empty and does not
    start with [[CELL]; hence [filter_by_cell_index] returns the empty
    list on any list of blocks that [format_cell] produced, and on the
    list [notebook_to_llm_blocks] returns, for every [start] and
    [end].  The same holds of a block rendered from a node, when the
    node has the fields [format_cell] reads. *)
Theorem rendered_blocks_never_pass_index_filter :
  (forall (c : cell) (index : Z),
     (format_cell c index = ""
      \/ exists rest, format_cell c index = newline ++ rest)
     /\ item (split (format_cell c index) newline (Some 1%nat)) 0 = "")
  /\ startswith "" "[CELL" = false
  /\ (forall (cells : list (cell * Z)) (start end_ : option Z),
        filter_by_cell_index
          (map (fun ci => format_cell (fst ci) (snd ci)) cells) start end_
        = inr [])
  /\ (forall (nb_read : string -> outcome notebook) (path : string)
             (start end_ : option Z),
        (let* blocks := notebook_to_llm_blocks nb_read path in
         filter_by_cell_index blocks start end_)
        = (let* blocks := notebook_to_llm_blocks nb_read path in inr []))
  /\ (forall (c : Node.cell) (index : Z),
        match Node.format_cell c index with
        | inr block =>
            (block = "" \/ exists rest, block = newline ++ rest)
            /\ item (split block newline (Some 1%nat)) 0 = ""
        | inl _ => True
        end).
Proof.
  split; [|split; [reflexivity|split; [|split]]].
  - intros c index. split;
      [apply format_cell_shape | apply format_cell_header_empty].
  - intros cells start end_. rewrite filter_by_cell_index_select.
    apply select_by_index_none, List.Forall_forall.
    intros b Hb. apply in_map_iff in Hb as ([c i] & <- & _).
    apply format_cell_dropped.
  - intros nb_read path start end_. rewrite notebook_to_llm_blocks_view.
    destruct (nb_read path) as [e|nb]; cbn [bind]; [reflexivity|].
    destruct (traverse cell_view nb) as [e|cells]; cbn [bind]; [reflexivity|].
    rewrite filter_by_cell_index_select.
    apply select_by_index_none, render_cells_Forall; [|constructor].
    intros c i. apply format_cell_dropped.
  - intros c index. rewrite node_format_cell.
    destruct (cell_view c) as [e|typed]; cbn [bind]; [exact I|].
    split; [apply format_cell_shape | apply format_cell_header_empty].
Qed.

Lemma header_no_LF (index : Z) (kind : string) :
  all_chars (not_char LF) kind = true ->
  all_chars (not_char LF) ("[CELL " ++ str_int index ++ kind) = true.
Proof.
  intros H. rewrite !all_chars_append, H.
  now rewrite (all_chars_impl _ _ _ sign_or_digit_not_LF (str_int_chars index)).
Qed.

Lemma execution_count_no_LF (n : option Z) :
  all_chars (not_char LF) ("[EXECUTION_COUNT] " ++ str_execution_count n) = true.
Proof.
  rewrite all_chars_append. destruct n as [k|]; [|reflexivity].
  simpl str_execution_count.
  now rewrite (all_chars_impl _ _ _ sign_or_digit_not_LF (str_int_chars k)).
Qed.

Lemma block_lines_cons (l rest : string) :
  all_chars (not_char LF) l = true ->
  block_lines (l ++ newline ++ rest) = l :: block_lines rest.
Proof. apply split_line. Qed.

(** The two blocks, with their leading lines set apart. *)
Lemma format_cell_markdown (c : cell) (index : Z) :
  cell_type c = "markdown" ->
  format_cell c index
  = "" ++ newline ++ ("[CELL " ++ str_int index ++ " | MARKDOWN]") ++ newline
    ++ strip (normalize_text (source c)) ++ newline.
Proof.
  intros T. unfold format_cell. rewrite T, String.eqb_refl.
  rewrite !append_assoc. reflexivity.
Qed.

Lemma format_cell_code (c : cell) (index : Z) :
  cell_type c = "code" ->
  format_cell c index
  = "" ++ newline ++ ("[CELL " ++ str_int index ++ " | CODE]") ++ newline
    ++ ("[EXECUTION_COUNT] " ++ str_execution_count (execution_count c))
    ++ newline
    ++ ("[HAS_ERROR] " ++ str_bool (snd (format_outputs (outputs c))))
    ++ newline ++ code_block_tail c.
Proof.
  intros T. unfold format_cell, code_block_tail. rewrite T.
  change ("code" =? "markdown")%string with false.
  rewrite String.eqb_refl.
  destruct (format_outputs (outputs c)) as [output_text has_error].
  rewrite !append_assoc. reflexivity.
Qed.

(** C2, as the specification words it, fails on a markdown cell with
    source [hello]: the first line of its block is empty, not the
    header. *)
Lemma format_cell_first_line_counterexample :
  ~ (forall (c : cell) (index : Z),
       cell_type c = "markdown" ->
       strip (normalize_text (source c)) <> "" ->
       nth_error (block_lines (format_cell c index)) 0
       = Some ("[CELL " ++ str_int index ++ " | MARKDOWN]")).
Proof.
  intros H. specialize (H hello_markdown 0 eq_refl).
  assert (N : strip (normalize_text (source hello_markdown)) <> "")
    by (vm_compute; discriminate).
  specialize (H N). vm_compute in H. discriminate.
Qed.

(** C2, amended: every block of a markdown or code cell starts with an
    empty line; its second line is exactly [[CELL <index> | MARKDOWN]]
    or [[CELL <index> | CODE]]; for a code cell the third line is
    [[EXECUTION_COUNT] <count>] and the fourth [[HAS_ERROR] <flag>],
    whatever the outputs are. *)
Theorem format_cell_layout :
  forall (c : cell) (index : Z),
    (cell_type c = "markdown" ->
     exists rest,
       block_lines (format_cell c index)
       = "" :: ("[CELL " ++ str_int index ++ " | MARKDOWN]") :: rest)
    /\ (cell_type c = "code" ->
        exists count flag rest,
          block_lines (format_cell c index)
          = "" :: ("[CELL " ++ str_int index ++ " | CODE]")
               :: count :: flag :: rest
          /\ count = "[EXECUTION_COUNT] " ++ str_execution_count (execution_count c)
          /\ flag = "[HAS_ERROR] " ++ str_bool (snd (format_outputs (outputs c)))
          /\ startswith count "[EXECUTION_COUNT]" = true
          /\ startswith flag "[HAS_ERROR]" = true).
Proof.
  intros c index. split; intros T.
  - rewrite (format_cell_markdown c index T).
    rewrite block_lines_cons by reflexivity.
    rewrite block_lines_cons by now apply header_no_LF.
    eauto.
  - rewrite (format_cell_code c index T).
    rewrite block_lines_cons by reflexivity.
    rewrite block_lines_cons by now apply header_no_LF.
    rewrite block_lines_cons by apply execution_count_no_LF.
    rewrite block_lines_cons
      by now destruct (snd (format_outputs (outputs c))).
    do 3 eexists. repeat split; reflexivity.
Qed.

Lemma format_cell_layout_witness :
  (cell_type hello_markdown = "markdown"
   /\ exists rest,
        block_lines (format_cell hello_markdown 0)
        = "" :: ("[CELL " ++ str_int 0 ++ " | MARKDOWN]") :: rest)
  /\ (cell_type rmse_cell = "code"
      /\ exists count flag rest,
           block_lines (format_cell rmse_cell 7)
           = "" :: ("[CELL " ++ str_int 7 ++ " | CODE]")
                :: count :: flag :: rest
           /\ count = "[EXECUTION_COUNT] "
                      ++ str_execution_count (execution_count rmse_cell)
           /\ flag = "[HAS_ERROR] "
                     ++ str_bool (snd (format_outputs (outputs rmse_cell)))
           /\ startswith count "[EXECUTION_COUNT]" = true
           /\ startswith flag "[HAS_ERROR]" = true).
Proof.
  split; (split; [reflexivity|]).
  - exact (proj1 (format_cell_layout hello_markdown 0) eq_refl).
  - exact (proj2 (format_cell_layout rmse_cell 7) eq_refl).
Defined.

(** ** Index-range filter on rendered blocks *)

(** C3: on the ten blocks rendered for the cells 0 to 9,
    [filter_by_cell_index] with [start = 2] and [end = 5] returns no
    block at all, since each block begins with a line feed and its
    header is not the text before the first line feed; on the same
    blocks without that first character it returns the blocks of 2, 3
    and 4. *)
Theorem filter_by_cell_index_on_rendered_blocks :
  filter_by_cell_index ten_blocks (Some 2) (Some 5) = inr []
  /\ filter_by_cell_index (map (drop 1) ten_blocks) (Some 2) (Some 5)
     = inr (map (fun i => drop 1 (nth i ten_blocks "")) [2; 3; 4]%nat).
Proof. split; vm_compute; reflexivity. Qed.

(** ** Error-presence filter *)

(** C4, as the specification words it, fails on the block of
    [echo_cell]: it holds a line [[HAS_ERROR] True], yet the filter
    with target [True] drops it, because the earlier line
    [[HAS_ERROR] False] decided. *)
Lemma filter_has_error_counterexample :
  ~ (forall (blocks : list string) (has_error : bool) (block : string),
       In block (filter_has_error blocks has_error) <->
       In block blocks
       /\ exists line, In line (splitlines block)
            /\ startswith line "[HAS_ERROR]" = true
            /\ has_error_flag line = has_error).
Proof.
  intros H.
  destruct (H [format_cell echo_cell 0] true (format_cell echo_cell 0))
    as [_ K].
  assert (F : In (format_cell echo_cell 0)
                 (filter_has_error [format_cell echo_cell 0] true)).
  { apply K. split; [now left|].
    exists "[HAS_ERROR] True". split; [|split; reflexivity].
    vm_compute. repeat (first [left; reflexivity | right]). }
  vm_compute in F. exact F.
Qed.

(** A markdown block is kept as well when its text supplies the tag
    line. *)
Lemma filter_has_error_tag_markdown :
  filter_has_error [format_cell tag_markdown 0] true
  = [format_cell tag_markdown 0].
Proof. vm_compute. reflexivity. Qed.

(** C4, amended: [filter_has_error] keeps a block exactly when the
    first of its lines that begins with [[HAS_ERROR]] carries the
    requested value (the text after the first []], trimmed and
    lowered, compared with [true]); a block with no such line, such
    as a markdown block whose source has none, is never kept, for
    either target. *)
Theorem filter_has_error_first_tag :
  forall (blocks : list string) (has_error : bool) (block : string),
    (In block (filter_has_error blocks has_error) <->
     In block blocks
     /\ exists pre line post,
          splitlines block = (pre ++ line :: post)%list
          /\ Forall (fun l => startswith l "[HAS_ERROR]" = false) pre
          /\ startswith line "[HAS_ERROR]" = true
          /\ has_error_flag line = has_error)
    /\ (Forall (fun l => startswith l "[HAS_ERROR]" = false) (splitlines block) ->
        ~ In block (filter_has_error blocks has_error)).
Proof.
  intros blocks has_error block. unfold filter_has_error.
  rewrite filter_has_error_loop_filter. simpl.
  rewrite filter_In, error_verdict_first. split; [reflexivity|].
  intros HF (_ & pre & line & post & E & _ & Hline & _).
  rewrite E in HF. apply Forall_app in HF as [_ HF].
  inversion HF; congruence.
Qed.

Lemma filter_has_error_first_tag_witness :
  Forall (fun l => startswith l "[HAS_ERROR]" = false)
         (splitlines (format_cell hello_markdown 0))
  /\ ~ In (format_cell hello_markdown 0)
          (filter_has_error
             [format_cell hello_markdown 0; format_cell rmse_cell 1] false).
Proof.
  assert (F : Forall (fun l => startswith l "[HAS_ERROR]" = false)
                     (splitlines (format_cell hello_markdown 0)))
    by (vm_compute; repeat constructor).
  split; [exact F|].
  exact (proj2 (filter_has_error_first_tag
                  [format_cell hello_markdown 0; format_cell rmse_cell 1]
                  false (format_cell hello_markdown 0)) F).
Defined.

Lemma header_no_break (index : Z) (kind : string) :
  all_chars (fun c => negb (islinebreak c)) kind = true ->
  all_chars (fun c => negb (islinebreak c))
            ("[CELL " ++ str_int index ++ kind) = true.
Proof.
  intros H. rewrite !all_chars_append, H.
  now rewrite (all_chars_impl _ _ _ sign_or_digit_not_break
                 (str_int_chars index)).
Qed.

Lemma execution_count_no_break (n : option Z) :
  all_chars (fun c => negb (islinebreak c))
            ("[EXECUTION_COUNT] " ++ str_execution_count n) = true.
Proof.
  rewrite all_chars_append. destruct n as [k|]; [|reflexivity].
  simpl str_execution_count.
  now rewrite (all_chars_impl _ _ _ sign_or_digit_not_break (str_int_chars k)).
Qed.

(** On the block of a code cell the deciding line is the one
    [format_cell] wrote: the block is kept exactly when the flag of its
    outputs is the requested one. *)
Lemma filter_has_error_code_block (c : cell) (index : Z) (has_error : bool) :
  cell_type c = "code" ->
  filter_has_error [format_cell c index] has_error
  = if Bool.eqb (snd (format_outputs (outputs c))) has_error
    then [format_cell c index] else [].
Proof.
  intros T. unfold filter_has_error.
  rewrite filter_has_error_loop_filter. simpl.
  rewrite (format_cell_code c index T) at 1.
  rewrite splitlines_line by reflexivity.
  rewrite splitlines_line by now apply header_no_break.
  rewrite splitlines_line by apply execution_count_no_break.
  rewrite splitlines_line
    by now destruct (snd (format_outputs (outputs c))).
  cbn [error_verdict].
  change (startswith "" "[HAS_ERROR]") with false.
  change (startswith ("[CELL " ++ str_int index ++ " | CODE]") "[HAS_ERROR]")
    with false.
  change (startswith ("[EXECUTION_COUNT] "
                      ++ str_execution_count (execution_count c)) "[HAS_ERROR]")
    with false.
  change (startswith ("[HAS_ERROR] "
                      ++ str_bool (snd (format_outputs (outputs c)))) "[HAS_ERROR]")
    with true.
  cbv iota.
  assert (G : has_error_flag
                ("[HAS_ERROR] " ++ str_bool (snd (format_outputs (outputs c))))
              = snd (format_outputs (outputs c)))
    by now destruct (snd (format_outputs (outputs c))).
  now rewrite G.
Qed.

(** ** Further properties: the Notebook Loader *)

Lemma rstrip_cons_nonspace (c : ascii) (s : string) :
  isspace c = false -> rstrip (String c s) <> "".
Proof.
  intros H. simpl. rewrite H. now destruct (rstrip s).
Qed.

Lemma strip_newline_bracket (s : string) :
  is_empty (strip (newline ++ String "[" s)) = false.
Proof.
  unfold strip. change (lstrip (newline ++ String "[" s)) with (String "[" s).
  pose proof (rstrip_cons_nonspace "[" s eq_refl) as H.
  now destruct (rstrip (String "[" s)).
Qed.

(** A block is appended exactly for the markdown and the code cells,
    whatever their source is. *)
Lemma format_cell_kept (c : cell) (index : Z) :
  is_empty (strip (format_cell c index)) = negb (is_rendered c).
Proof.
  unfold is_rendered.
  destruct (cell_type c =? "markdown")%string eqn:M.
  - apply String.eqb_eq in M. rewrite (format_cell_markdown c index M).
    apply strip_newline_bracket.
  - destruct (cell_type c =? "code")%string eqn:K.
    + apply String.eqb_eq in K. rewrite (format_cell_code c index K).
      apply strip_newline_bracket.
    + unfold format_cell. now rewrite M, K.
Qed.

Lemma render_cells_enumerate (cells : list cell) (i : Z) (blocks : list string) :
  render_cells cells i blocks
  = (blocks
     ++ map (fun ic => format_cell (snd ic) (fst ic))
          (List.filter (fun ic => is_rendered (snd ic))
             (enumerate_from i cells)))%list.
Proof.
  revert i blocks; induction cells as [|c cells IH]; intros i blocks; simpl.
  - now rewrite app_nil_r.
  - rewrite IH, format_cell_kept.
    destruct (is_rendered c); simpl; [now rewrite <- app_assoc | reflexivity].
Qed.

Lemma getattr_raises {A} (field : option A) (name : string) (e : exn) :
  getattr field name = inl e -> e = AttributeError name.
Proof. destruct field; simpl; congruence. Qed.

Lemma traverse_raises {A B} (f : A -> outcome B) (xs : list A) (e : exn) :
  traverse f xs = inl e -> exists x, In x xs /\ f x = inl e.
Proof.
  induction xs as [|x xs IH]; cbn [traverse]; [discriminate|].
  destruct (f x) as [e'|y] eqn:F; cbn [bind].
  - intros [= <-]. exists x. split; [now left | exact F].
  - destruct (traverse f xs) as [e'|ys]; cbn [bind]; [|discriminate].
    intros [= <-]. destruct (IH eq_refl) as (x' & Hin & Hx').
    exists x'. split; [now right | exact Hx'].
Qed.

Ltac field_read H :=
  match type of H with
  | context [getattr ?f ?n] =>
      let E := fresh "E" in
      destruct (getattr f n) eqn:E; cbn [bind] in H;
      [apply getattr_raises in E; injection H as <-; subst;
       eexists; split; [reflexivity | simpl; tauto] |]
  end.

(** Reading the fields of an output or of a cell raises nothing but
    the [AttributeError] of one of the fields. *)
Lemma output_view_raises (out : Node.output) (e : exn) :
  output_view out = inl e ->
  exists name, e = AttributeError name /\ In name field_names.
Proof.
  unfold output_view. intros H. field_read H.
  repeat (match type of H with
          | context [if ?b then _ else _] => destruct b
          end; repeat field_read H; try discriminate H).
Qed.

Lemma cell_view_raises (c : Node.cell) (e : exn) :
  cell_view c = inl e ->
  exists name, e = AttributeError name /\ In name field_names.
Proof.
  unfold cell_view. intros H. do 2 field_read H.
  destruct (_ =? "code")%string; [|discriminate H].
  field_read H.
  destruct (traverse output_view _) as [e'|outs] eqn:T; cbn [bind] in H.
  - injection H as <-. apply traverse_raises in T as (out & _ & T).
    now apply output_view_raises in T.
  - field_read H. discriminate H.
Qed.

(** X1: [notebook_to_llm_blocks] passes a failure of [nbformat.read]
    on unchanged; it raises the [AttributeError] of the first field
    that [format_cell] or [format_outputs] reads and a cell or output
    does not have; and otherwise it returns, in cell order, the block
    of every markdown and every code cell rendered with the position
    of the cell in the notebook (cells of other types take up a
    position and give no block); a markdown or code cell with blank
    source still gives its block. *)
Theorem notebook_to_llm_blocks_enumerate :
  forall (nb_read : string -> outcome notebook) (path : string),
    notebook_to_llm_blocks nb_read path
    = (let* nb := nb_read path in
       let* cells := traverse cell_view nb in
       inr (map (fun ic => format_cell (snd ic) (fst ic))
              (List.filter (fun ic => is_rendered (snd ic))
                 (enumerate_from 0 cells))))
    /\ match nb_read path with
       | inr nb =>
           match traverse cell_view nb with
           | inl e => exists name, e = AttributeError name /\ In name field_names
           | inr _ => True
           end
       | inl _ => True
       end.
Proof.
  intros nb_read path. split.
  - rewrite notebook_to_llm_blocks_view.
    destruct (nb_read path) as [e|nb]; cbn [bind]; [reflexivity|].
    destruct (traverse cell_view nb) as [e|cells]; cbn [bind]; [reflexivity|].
    now rewrite render_cells_enumerate.
  - destruct (nb_read path) as [e|nb]; [exact I|].
    destruct (traverse cell_view nb) as [e|cells] eqn:T; [|exact I].
    apply traverse_raises in T as (c & _ & T).
    now apply cell_view_raises in T.
Qed.

(** ** Further properties: the Output Renderer *)

Lemma record_error_is_error (out : output) : record_error out = is_error out.
Proof.
  unfold record_error. destruct out as [text|data|data|en ev tb|ty]; simpl;
    try reflexivity.
  - now destruct (is_empty _).
  - now destruct (_ !! _).
  - now destruct (_ !! _).
Qed.

Lemma silent_record_lines (out : output) :
  silent out = true -> record_lines out = [] /\ record_error out = false.
Proof.
  unfold record_lines, record_error.
  destruct out as [text|data|data|en ev tb|ty]; simpl; intros H;
    try discriminate; auto.
  - now rewrite H.
  - now destruct (_ !! _).
  - now destruct (_ !! _).
Qed.

Lemma output_lines_concat (outputs : list output) :
  output_lines outputs = concat (map record_lines outputs).
Proof. unfold output_lines. now rewrite format_outputs_loop. Qed.

Lemma has_error_iff_error_record (outputs : list output) :
  snd (format_outputs outputs) = true <->
  exists ename evalue traceback, In (Error ename evalue traceback) outputs.
Proof.
  rewrite format_outputs_unfold. simpl.
  rewrite existsb_exists. split.
  - intros (out & Hin & H). rewrite record_error_is_error in H.
    destruct out; try discriminate. eauto.
  - intros (en & ev & tb & Hin). exists (Error en ev tb). auto.
Qed.

(** X2: the flag [format_outputs] returns is [True] exactly when one of
    the records is an error record, wherever it stands and whatever the
    other records are. *)
Theorem format_outputs_has_error :
  forall (outputs : list output),
    snd (format_outputs outputs) = true <->
    exists ename evalue traceback, In (Error ename evalue traceback) outputs.
Proof. intros outputs. apply has_error_iff_error_record. Qed.

(** X3: a record that [format_outputs] passes over (a stream with blank
    text, display data or a result without [text/plain], a record of an
    unknown type) can be taken out of the list without changing the
    text or the flag. *)
Theorem format_outputs_skips_silent :
  forall (before after : list output) (out : output),
    silent out = true ->
    format_outputs (before ++ out :: after)%list
    = format_outputs (before ++ after)%list.
Proof.
  intros before after out H.
  destruct (silent_record_lines out H) as [L E].
  rewrite !format_outputs_unfold, !output_lines_concat.
  rewrite !map_app, !concat_app, !existsb_app. simpl.
  now rewrite L, E.
Qed.

Lemma format_outputs_skips_silent_witness :
  silent (OtherOutput "update_display_data") = true
  /\ format_outputs
       ([Stream (TextStr "a")] ++ OtherOutput "update_display_data"
          :: [Stream (TextStr "b")])%list
     = format_outputs ([Stream (TextStr "a")] ++ [Stream (TextStr "b")])%list.
Proof.
  split; [reflexivity|].
  exact (format_outputs_skips_silent [Stream (TextStr "a")]
           [Stream (TextStr "b")] (OtherOutput "update_display_data") eq_refl).
Defined.

(** X4: the lines of two output lists rendered one after the other are
    the lines of the first followed by the lines of the second, and the
    flag is the disjunction of the two flags. *)
Theorem format_outputs_app :
  forall (first second : list output),
    format_outputs (first ++ second)%list
    = (join newline (output_lines first ++ output_lines second)%list,
       snd (format_outputs first) || snd (format_outputs second)).
Proof.
  intros first second.
  rewrite !format_outputs_unfold, !output_lines_concat.
  now rewrite map_app, concat_app, existsb_app.
Qed.

Lemma silent_outputs_empty (outputs : list output) :
  forallb silent outputs = true -> format_outputs outputs = ("", false).
Proof.
  intros H. rewrite format_outputs_unfold, output_lines_concat.
  induction outputs as [|o os IH]; [reflexivity|].
  simpl in H. apply andb_true_iff in H as [Ho Hos].
  destruct (silent_record_lines o Ho) as [L E].
  simpl. rewrite L, E. simpl. now apply IH.
Qed.

(** X5: a code cell with no outputs, or with none but records that are
    passed over, renders with [False] as its error flag and the marker
    [<NO OUTPUT>] under [[OUTPUT]]. *)
Theorem format_cell_no_output :
  forall (c : cell) (index : Z),
    cell_type c = "code" ->
    forallb silent (outputs c) = true ->
    format_cell c index
    = newline ++ "[CELL " ++ str_int index ++ " | CODE]" ++ newline
      ++ "[EXECUTION_COUNT] " ++ str_execution_count (execution_count c)
      ++ newline ++ "[HAS_ERROR] False" ++ newline ++ newline
      ++ strip (normalize_text (source c)) ++ newline ++ newline
      ++ "[OUTPUT]" ++ newline ++ "<NO OUTPUT>" ++ newline.
Proof.
  intros c index T H. unfold format_cell.
  rewrite T, (silent_outputs_empty _ H).
  change ("code" =? "markdown")%string with false.
  now rewrite String.eqb_refl.
Qed.

Lemma format_cell_no_output_witness :
  let c := Cell "code" (TextStr "import os") None [OtherOutput "widget"] in
  cell_type c = "code"
  /\ forallb silent (outputs c) = true
  /\ format_cell c 3
     = newline ++ "[CELL " ++ str_int 3 ++ " | CODE]" ++ newline
       ++ "[EXECUTION_COUNT] " ++ str_execution_count (execution_count c)
       ++ newline ++ "[HAS_ERROR] False" ++ newline ++ newline
       ++ strip (normalize_text (source c)) ++ newline ++ newline
       ++ "[OUTPUT]" ++ newline ++ "<NO OUTPUT>" ++ newline.
Proof.
  intros c. split; [reflexivity|]. split; [reflexivity|].
  exact (format_cell_no_output c 3 eq_refl eq_refl).
Defined.

(** ** Further properties: the index written and read back *)

Lemma lstrip_id (s : string) :
  all_chars (fun c => negb (isspace c)) s = true -> lstrip s = s.
Proof.
  destruct s as [|c s]; simpl; [reflexivity|].
  intros H. apply andb_true_iff in H as [Hc _].
  apply negb_true_iff in Hc. now rewrite Hc.
Qed.

Lemma rstrip_id (s : string) :
  all_chars (fun c => negb (isspace c)) s = true -> rstrip s = s.
Proof.
  induction s as [|c s IH]; simpl; [reflexivity|].
  intros H. apply andb_true_iff in H as [Hc Hs].
  apply negb_true_iff in Hc. rewrite (IH Hs), Hc. now destruct s.
Qed.

Lemma strip_id (s : string) :
  all_chars (fun c => negb (isspace c)) s = true -> strip s = s.
Proof.
  intros H. unfold strip. rewrite (lstrip_id s H). now apply rstrip_id.
Qed.

Lemma string_of_uint_isdigit (d : Decimal.uint) :
  all_chars isdigit (NilEmpty.string_of_uint d) = true.
Proof. induction d; simpl; auto. Qed.

Lemma isdigit_not_space (c : ascii) :
  isdigit c = true -> negb (isspace c) = true.
Proof.
  destruct c as [[] [] [] [] [] [] [] []]; vm_compute; congruence.
Qed.

Lemma sign_or_digit_not_space (c : ascii) :
  sign_or_digit c = true -> negb (isspace c) = true.
Proof.
  destruct c as [[] [] [] [] [] [] [] []]; vm_compute; congruence.
Qed.

(** Reading digits that [str] wrote, with [acc] read so far. *)
Lemma parse_digits_acc (d : Decimal.uint) (acc : positive) :
  parse_digits AfterDigit (Zpos acc) (NilEmpty.string_of_uint d)
  = Some (Zpos (Pos.of_uint_acc d acc)).
Proof.
  revert acc; induction d; intros acc; cbn [NilEmpty.string_of_uint];
    [reflexivity|..];
    cbn [parse_digits]; (match goal with
    | |- context [isdigit ?c] => change (isdigit c) with true
     end); cbv iota; cbn [Pos.of_uint_acc];
    rewrite <- IHd; f_equal; unfold digit_val;
    (match goal with
     | |- context [Z.of_nat (nat_of_ascii ?c)] =>
         let v := eval vm_compute in (Z.of_nat (nat_of_ascii c)) in
         change (Z.of_nat (nat_of_ascii c)) with v
     end); lia.
Qed.

Lemma parse_digits_zero (d : Decimal.uint) :
  parse_digits AfterDigit 0 (NilEmpty.string_of_uint d)
  = Some (Z.of_N (Pos.of_uint d)).
Proof.
  induction d; cbn [NilEmpty.string_of_uint]; [reflexivity|..];
    cbn [parse_digits]; (match goal with
    | |- context [isdigit ?c] => change (isdigit c) with true
     end); cbv iota; cbn [Pos.of_uint];
    try exact IHd;
    (match goal with
     | |- parse_digits AfterDigit ?a _ = Some (Z.of_N (Npos (Pos.of_uint_acc _ ?p))) =>
         change a with (Zpos p)
     end); apply parse_digits_acc.
Qed.

Lemma parse_digits_start (d : Decimal.uint) :
  d <> Decimal.Nil ->
  parse_digits NoDigit 0 (NilEmpty.string_of_uint d)
  = Some (Z.of_N (Pos.of_uint d)).
Proof.
  intros H. rewrite <- parse_digits_zero.
  destruct d; [congruence|..]; reflexivity.
Qed.

Lemma int_of_str_unsigned (s : string) :
  all_chars isdigit s = true -> int_of_str s = parse_digits NoDigit 0 s.
Proof.
  intros H. unfold int_of_str.
  rewrite (strip_id s (all_chars_impl _ _ _ isdigit_not_space H)).
  destruct s as [|c s]; [reflexivity|].
  simpl in H. apply andb_true_iff in H as [Hc _].
  destruct c as [[] [] [] [] [] [] [] []]; try discriminate Hc; reflexivity.
Qed.

Lemma int_of_str_negative (s : string) :
  all_chars isdigit s = true ->
  int_of_str (String "-" s) = option_map Z.opp (parse_digits NoDigit 0 s).
Proof.
  intros H. unfold int_of_str.
  assert (N : all_chars (fun c => negb (isspace c)) (String "-" s) = true).
  { simpl. exact (all_chars_impl _ _ _ isdigit_not_space H). }
  now rewrite (strip_id _ N).
Qed.

(** [int] reads back what [str] wrote. *)
Lemma int_of_str_str_int (n : Z) : int_of_str (str_int n) = Some n.
Proof.
  destruct n as [|p|p].
  - reflexivity.
  - change (str_int (Z.pos p)) with (NilEmpty.string_of_uint (Pos.to_uint p)).
    rewrite int_of_str_unsigned by apply string_of_uint_isdigit.
    rewrite parse_digits_start by apply Unsigned.to_uint_nonnil.
    now rewrite Unsigned.of_to.
  - change (str_int (Z.neg p))
      with (String "-" (NilEmpty.string_of_uint (Pos.to_uint p))).
    rewrite int_of_str_negative by apply string_of_uint_isdigit.
    rewrite parse_digits_start by apply Unsigned.to_uint_nonnil.
    now rewrite Unsigned.of_to.
Qed.

Lemma str_int_nonempty (n : Z) : str_int n <> "".
Proof.
  intros E. pose proof (int_of_str_str_int n) as H.
  rewrite E in H. discriminate H.
Qed.

Lemma rstrip_trailing_space (d : string) :
  all_chars (fun c => negb (isspace c)) d = true -> d <> "" ->
  rstrip (d ++ " ") = d.
Proof.
  induction d as [|c d IH]; intros H N; [congruence|].
  simpl in H. apply andb_true_iff in H as [Hc Hd].
  apply negb_true_iff in Hc.
  change (String c d ++ " ") with (String c (d ++ " ")).
  cbn [rstrip]. destruct d as [|c' d'].
  - simpl. now rewrite Hc.
  - rewrite (IH Hd) by discriminate. reflexivity.
Qed.

Lemma strip_padded (d : string) :
  all_chars (fun c => negb (isspace c)) d = true -> d <> "" ->
  strip (" " ++ d ++ " ") = d.
Proof.
  intros H N. unfold strip.
  change (lstrip (" " ++ d ++ " ")) with (lstrip (d ++ " ")).
  destruct d as [|c d]; [congruence|].
  assert (Hc : isspace c = false).
  { simpl in H. apply andb_true_iff in H as [Hc _].
    now apply negb_true_iff in Hc. }
  change (String c d ++ " ") with (String c (d ++ " ")).
  cbn [lstrip]. rewrite Hc.
  change (String c (d ++ " ")) with (String c d ++ " ").
  now apply rstrip_trailing_space.
Qed.

(** A separator whose first character is not in [s] is not found. *)
Lemma find_sub_absent (c : ascii) (p s : string) :
  all_chars (not_char c) s = true -> find_sub (String c p) s = None.
Proof.
  induction s as [|d s IH]; intros H; rewrite find_sub_unfold.
  - reflexivity.
  - simpl in H. apply andb_true_iff in H as [Hd Hs].
    unfold not_char in Hd. simpl.
    destruct (ascii_dec c d); [discriminate|]. now rewrite (IH Hs).
Qed.

Lemma split_none (s sep : string) (maxsplit : option nat) :
  find_sub sep s = None -> split s sep maxsplit = [s].
Proof.
  intros H. unfold split. cbn [split_fuel]. rewrite H.
  now destruct maxsplit as [[|k]|].
Qed.

Lemma split_cut (s sep a b : string) :
  sep <> "" -> find_sub sep s = Some (a, b) ->
  split s sep None = a :: split b sep None.
Proof.
  intros N H. unfold split at 1. cbn [split_fuel]. rewrite H.
  cbn [option_map]. f_equal. apply split_fuel_enough; [exact N|].
  now apply (find_sub_shorter sep s a b).
Qed.

Lemma header_of_kind (ty : string) (index : Z) :
  exists kind,
    header_of ty index = "[CELL " ++ str_int index ++ " | " ++ kind ++ "]"
    /\ all_chars (not_char "[") kind = true
    /\ all_chars (not_char LF) kind = true.
Proof.
  unfold header_of. destruct (ty =? "markdown")%string;
    [exists "MARKDOWN" | exists "CODE"]; repeat split.
Qed.

Lemma sign_or_digit_plain (c : ascii) :
  sign_or_digit c = true ->
  not_char "[" c = true /\ not_char "|" c = true.
Proof.
  destruct c as [[] [] [] [] [] [] [] []]; vm_compute; intuition congruence.
Qed.

(** The index [format_cell] writes into a header is the one
    [header_index] reads out of it. *)
Lemma header_index_header_of (ty : string) (index : Z) :
  header_index (header_of ty index) = inr index.
Proof.
  destruct (header_of_kind ty index) as (kind & -> & K1 & _).
  pose proof (str_int_chars index) as D.
  assert (D1 : all_chars (not_char "[") (str_int index) = true)
    by (apply (all_chars_impl sign_or_digit); [|exact D];
        intros c Hc; apply (sign_or_digit_plain c Hc)).
  assert (D2 : all_chars (not_char "|") (str_int index) = true)
    by (apply (all_chars_impl sign_or_digit); [|exact D];
        intros c Hc; apply (sign_or_digit_plain c Hc)).
  unfold header_index.
  assert (S1 : split ("[CELL " ++ str_int index ++ " | " ++ kind ++ "]")
                 "[CELL" None
               = ["" ; " " ++ str_int index ++ " | " ++ kind ++ "]"]).
  { rewrite (split_cut _ "[CELL" "" (" " ++ str_int index ++ " | " ++ kind ++ "]"));
      [|discriminate|reflexivity].
    f_equal. apply split_none, find_sub_absent.
    rewrite !all_chars_append, D1, K1. reflexivity. }
  rewrite S1. cbn [item nth].
  assert (S2 : exists rest,
             split (" " ++ str_int index ++ " | " ++ kind ++ "]") "|" None
             = (" " ++ str_int index ++ " ") :: rest).
  { eexists. apply split_cut; [discriminate|].
    replace (" " ++ str_int index ++ " | " ++ kind ++ "]")
      with ((" " ++ str_int index ++ " ") ++ String "|" (" " ++ kind ++ "]"))
      by (simpl; now rewrite !append_assoc).
    apply find_sub_char.
    rewrite !all_chars_append, D2. reflexivity. }
  destruct S2 as [rest ->]. unfold item. cbn [nth].
  rewrite strip_padded;
    [|exact (all_chars_impl _ _ _ sign_or_digit_not_space D)
     |apply str_int_nonempty].
  now rewrite int_of_str_str_int.
Qed.

Lemma split_head_line (h rest : string) :
  all_chars (not_char LF) h = true ->
  item (split (h ++ newline ++ rest) newline (Some 1%nat)) 0 = h.
Proof.
  intros H. unfold split. cbn [split_fuel].
  change (newline ++ rest) with (String LF rest).
  change newline with (String LF "").
  now rewrite (find_sub_char LF h rest H).
Qed.

Lemma header_of_no_LF (ty : string) (index : Z) :
  all_chars (not_char LF) (header_of ty index) = true.
Proof.
  unfold header_of. apply header_no_LF.
  now destruct (ty =? "markdown")%string.
Qed.

(** A rendered block without its first character is the header, a line
    feed and the rest. *)
Lemma from_header_format_cell (c : cell) (index : Z) :
  is_rendered c = true ->
  exists rest,
    from_header (format_cell c index)
    = header_of (cell_type c) index ++ newline ++ rest.
Proof.
  unfold is_rendered, header_of. intros R.
  destruct (cell_type c =? "markdown")%string eqn:M.
  - apply String.eqb_eq in M. rewrite (format_cell_markdown c index M).
    eexists. reflexivity.
  - simpl in R. apply String.eqb_eq in R.
    rewrite (format_cell_code c index R). eexists. reflexivity.
Qed.

Lemma from_header_not_rendered (c : cell) (index : Z) :
  is_rendered c = false -> from_header (format_cell c index) = "".
Proof.
  unfold is_rendered, format_cell. intros R.
  apply orb_false_iff in R as [-> ->]. reflexivity.
Qed.

Lemma header_round_trip (c : cell) (index : Z) :
  is_rendered c = true ->
  startswith
    (item (split (from_header (format_cell c index)) newline (Some 1%nat)) 0)
    "[CELL" = true
  /\ header_index
       (item (split (from_header (format_cell c index)) newline (Some 1%nat)) 0)
     = inr index.
Proof.
  intros R.
  destruct (from_header_format_cell c index R) as [rest ->].
  rewrite (split_head_line _ _ (header_of_no_LF _ _)).
  split; [reflexivity | apply header_index_header_of].
Qed.

(** X6: the header that [format_cell] writes for a markdown or code
    cell carries the index in the form [filter_by_cell_index] reads: cut
    off as the filter cuts it off from the block without its leading
    line feed, and handed to the filter's integer parsing, the header
    gives back the index, for every integer index, negative ones
    included. *)
Theorem header_index_round_trip :
  forall (c : cell) (index : Z),
    is_rendered c = true ->
    startswith
      (item (split (from_header (format_cell c index)) newline (Some 1%nat)) 0)
      "[CELL" = true
    /\ header_index
         (item (split (from_header (format_cell c index)) newline (Some 1%nat)) 0)
       = inr index.
Proof. intros c index R. now apply header_round_trip. Qed.

Lemma header_index_round_trip_witness :
  is_rendered rmse_cell = true
  /\ startswith
       (item (split (from_header (format_cell rmse_cell (-12)))
                newline (Some 1%nat)) 0)
       "[CELL" = true
  /\ header_index
       (item (split (from_header (format_cell rmse_cell (-12)))
                newline (Some 1%nat)) 0)
     = inr (-12).
Proof.
  split; [reflexivity|].
  exact (header_index_round_trip rmse_cell (-12) eq_refl).
Defined.

Lemma index_verdict_from_header start end_ (c : cell) (index : Z) :
  index_verdict start end_ (from_header (format_cell c index))
  = inr (is_rendered c && in_range start end_ index).
Proof.
  destruct (is_rendered c) eqn:R.
  - destruct (header_round_trip c index R) as [H1 H2].
    now rewrite (index_verdict_range _ _ _ _ H1 H2).
  - now rewrite (from_header_not_rendered c index R).
Qed.

(** X7: on rendered blocks taken from their header on (each without
    the line feed it starts with), [filter_by_cell_index] never raises
    and keeps, in order, exactly the blocks of the markdown and code
    cells whose index lies in the half-open range: at or above [start]
    when that is given, below [end] when that is given. *)
Theorem filter_by_cell_index_from_header :
  forall (cells : list (Z * cell)) (start end_ : option Z),
    filter_by_cell_index
      (map (fun ic => from_header (format_cell (snd ic) (fst ic))) cells)
      start end_
    = inr (map (fun ic => from_header (format_cell (snd ic) (fst ic)))
             (List.filter
                (fun ic => is_rendered (snd ic) && in_range start end_ (fst ic))
                cells)).
Proof.
  intros cells start end_. rewrite filter_by_cell_index_select.
  induction cells as [|[i c] cells IH]; [reflexivity|].
  cbn [map select_by_index List.filter fst snd].
  rewrite index_verdict_from_header, IH. cbn [bind].
  now destruct (is_rendered c && in_range start end_ i).
Qed.

Lemma index_verdict_true start end_ (block : string) :
  index_verdict start end_ block = inr true <->
  startswith (header_line block) "[CELL" = true
  /\ exists idx, header_index (header_line block) = inr idx
       /\ in_range start end_ idx = true.
Proof.
  unfold header_line. split.
  - intros V. destruct (startswith _ "[CELL") eqn:S.
    + split; [reflexivity|].
      destruct (header_index (item (split block newline (Some 1%nat)) 0))
        as [e|idx] eqn:H.
      * unfold index_verdict in V. rewrite S, H in V. discriminate V.
      * exists idx. split; [reflexivity|].
        rewrite (index_verdict_range _ _ _ _ S H) in V. congruence.
    + unfold index_verdict in V. rewrite S in V. discriminate V.
  - intros (S & idx & H & R).
    now rewrite (index_verdict_range _ _ _ _ S H), R.
Qed.

Lemma index_verdict_returns start end_ (block : string) :
  (exists k, index_verdict start end_ block = inr k) <->
  (startswith (header_line block) "[CELL" = true ->
   exists idx, header_index (header_line block) = inr idx).
Proof.
  unfold header_line, index_verdict.
  destruct (startswith _ "[CELL"); simpl.
  - destruct (header_index _) as [e|idx]; simpl.
    + split; [intros [k K]; discriminate K|].
      intros H. destruct (H eq_refl) as [idx I]. discriminate I.
    + split; eauto.
  - split; [intros _ H; discriminate H | eauto].
Qed.

(** X8: when [filter_by_cell_index] returns, a block is in the result
    exactly when it is in the input, its first line starts with
    [[CELL], and the integer between [[CELL] and the first [|] of that
    line is at or above [start] (when given) and below [end] (when
    given). *)
Theorem filter_by_cell_index_keeps_in_range :
  forall (blocks kept : list string) (start end_ : option Z),
    filter_by_cell_index blocks start end_ = inr kept ->
    forall block,
      In block kept <->
      In block blocks
      /\ startswith (header_line block) "[CELL" = true
      /\ exists idx, header_index (header_line block) = inr idx
           /\ in_range start end_ idx = true.
Proof.
  intros blocks kept start end_ H block.
  rewrite filter_by_cell_index_select in H.
  destruct (select_by_index_inr _ _ _ _ H) as [-> HF].
  rewrite filter_In, <- index_verdict_true.
  rewrite List.Forall_forall in HF. split.
  - intros [Hin V]. split; [exact Hin|].
    destruct (HF block Hin) as [k K]. rewrite K in V |- *. congruence.
  - intros [Hin V]. split; [exact Hin|]. now rewrite V.
Qed.

Lemma filter_by_cell_index_keeps_in_range_witness :
  filter_by_cell_index ["[CELL 3 | CODE]"; "[CELL 4 | CODE]"; "note"]
    (Some 4) None
  = inr ["[CELL 4 | CODE]"]
  /\ (In "[CELL 4 | CODE]" ["[CELL 4 | CODE]"] <->
      In "[CELL 4 | CODE]" ["[CELL 3 | CODE]"; "[CELL 4 | CODE]"; "note"]
      /\ startswith (header_line "[CELL 4 | CODE]") "[CELL" = true
      /\ exists idx, header_index (header_line "[CELL 4 | CODE]") = inr idx
           /\ in_range (Some 4) None idx = true).
Proof.
  split; [reflexivity|].
  exact (filter_by_cell_index_keeps_in_range
           ["[CELL 3 | CODE]"; "[CELL 4 | CODE]"; "note"] ["[CELL 4 | CODE]"]
           (Some 4) None eq_refl "[CELL 4 | CODE]").
Defined.

(** X9: [filter_by_cell_index] returns a list exactly when every block
    whose first line starts with [[CELL] holds an integer between
    [[CELL] and the first [|] of that line; otherwise it raises the
    [ValueError] of [int], whatever [start] and [end] are. *)
Theorem filter_by_cell_index_returns :
  forall (blocks : list string) (start end_ : option Z),
    (exists kept, filter_by_cell_index blocks start end_ = inr kept) <->
    Forall (fun block =>
              startswith (header_line block) "[CELL" = true ->
              exists idx, header_index (header_line block) = inr idx)
           blocks.
Proof.
  intros blocks start end_. rewrite filter_by_cell_index_select. split.
  - intros [kept H]. destruct (select_by_index_inr _ _ _ _ H) as [_ HF].
    eapply List.Forall_impl; [|exact HF].
    intros b Hb. now apply (index_verdict_returns start end_).
  - intros HF. apply select_by_index_total.
    eapply List.Forall_impl; [|exact HF].
    intros b Hb. now apply index_verdict_returns.
Qed.

(** ** Further properties: the tool *)

Lemma filter_by_keyword_filter (blocks : list string) (keywords : keywords_arg) :
  filter_by_keyword blocks keywords
  = List.filter (keyword_hit (keyword_list keywords)) blocks.
Proof.
  unfold filter_by_keyword. now rewrite filter_by_keyword_loop_filter.
Qed.

Lemma filter_has_error_filter (blocks : list string) (has_error : bool) :
  filter_has_error blocks has_error
  = List.filter (fun b => error_verdict has_error (splitlines b)) blocks.
Proof.
  unfold filter_has_error. now rewrite filter_has_error_loop_filter.
Qed.

Lemma rendered_dropped start end_ (cells : list cell) (i : Z) :
  Forall (fun b => index_verdict start end_ b = inr false)
         (map (fun ic => format_cell (snd ic) (fst ic))
            (List.filter (fun ic => is_rendered (snd ic))
               (enumerate_from i cells))).
Proof.
  apply List.Forall_forall. intros b Hb.
  apply in_map_iff in Hb as ([j c] & <- & _). apply format_cell_dropped.
Qed.

Lemma Forall_filter {A} (P : A -> Prop) (f : A -> bool) (l : list A) :
  Forall P l -> Forall P (List.filter f l).
Proof.
  rewrite !List.Forall_forall. intros H x Hx.
  apply filter_In in Hx as [Hx _]. now apply H.
Qed.

(** The index filter and the error filter of the [try] body, on blocks
    none of which has its header on the first line. *)
Lemma filtered_blocks_tail (blocks : list string)
    (start_cell end_cell : option Z) (only_errors : option bool) :
  Forall (fun b => index_verdict start_cell end_cell b = inr false) blocks ->
  (let* ranged :=
     if is_given start_cell || is_given end_cell
     then filter_by_cell_index blocks start_cell end_cell
     else inr blocks in
   inr (match only_errors with
        | Some b => filter_has_error ranged b
        | None => ranged
        end))
  = inr (match only_errors with
         | Some target =>
             List.filter (fun b => error_verdict target (splitlines b))
               (if is_given start_cell || is_given end_cell then [] else blocks)
         | None => if is_given start_cell || is_given end_cell then [] else blocks
         end).
Proof.
  intros H. destruct (is_given start_cell || is_given end_cell).
  - rewrite filter_by_cell_index_select, (select_by_index_none _ _ _ H).
    cbn [bind]. now destruct only_errors.
  - cbn [bind]. destruct only_errors; [|reflexivity].
    now rewrite filter_has_error_filter.
Qed.

(** The [try] body: load, read the fields of every cell, and keep the
    blocks [expected_blocks] names. *)
Lemma filtered_blocks_expected
    (nb_read : string -> outcome notebook) (path : string)
    (keywords : option keywords_arg) (start_cell end_cell : option Z)
    (only_errors : option bool) :
  filtered_blocks nb_read path keywords start_cell end_cell only_errors
  = (let* nb := nb_read path in
     let* cells := traverse cell_view nb in
     inr (expected_blocks cells keywords start_cell end_cell only_errors)).
Proof.
  unfold filtered_blocks. rewrite notebook_to_llm_blocks_view.
  destruct (nb_read path) as [e|nb]; cbn [bind]; [reflexivity|].
  destruct (traverse cell_view nb) as [e|cells]; cbn [bind]; [reflexivity|].
  rewrite render_cells_enumerate. cbn [app]. unfold expected_blocks.
  cbv zeta. pose proof (rendered_dropped start_cell end_cell cells 0) as R.
  destruct keywords as [kws|]; [destruct (truthy_keywords (Some kws))|];
    rewrite ?filter_by_keyword_filter;
    apply filtered_blocks_tail; auto using Forall_filter.
Qed.

Lemma read_notebook_expected
    (nb_read : string -> outcome notebook) (repr : string -> string)
    (path : string) (keywords : option keywords_arg)
    (start_cell end_cell : option Z) (only_errors : option bool) :
  read_notebook nb_read repr path keywords start_cell end_cell only_errors
  = match (let* nb := nb_read path in traverse cell_view nb) with
    | inl e => "Error reading notebook: " ++ exn_str repr e
    | inr cells =>
        match expected_blocks cells keywords start_cell end_cell only_errors
        with
        | [] => "No matching cells found with the specified filters."
        | block :: blocks => join newline (block :: blocks)
        end
    end.
Proof.
  unfold read_notebook. rewrite filtered_blocks_expected.
  destruct (nb_read path) as [e|nb]; cbn [bind]; [reflexivity|].
  destruct (traverse cell_view nb) as [e|cells]; cbn [bind]; [reflexivity|].
  now destruct (expected_blocks cells keywords start_cell end_cell only_errors).
Qed.

(** ** Tool Entry Point *)

(** C1: [read_notebook] always returns a string, and that string is
    one of three.  When [nbformat.read] raises, or a cell or output
    lacks a field the renderers read, it is [Error reading notebook: ]
    followed by the message of that exception: the message
    [nbformat.read] gave, the name of the missing field, and for the
    [ValueError] of [int] its own text; nothing of the blocks is
    returned then.  Otherwise it is the sentence
    [No matching cells found with the specified filters.] when the
    filters leave no block, and the blocks they leave joined by line
    feeds when they leave at least one. *)
Theorem read_notebook_never_raises :
  forall (nb_read : string -> outcome notebook) (repr : string -> string)
         (path : string) (keywords : option keywords_arg)
         (start_cell end_cell : option Z) (only_errors : option bool),
    read_notebook nb_read repr path keywords start_cell end_cell only_errors
    = match (let* nb := nb_read path in traverse cell_view nb) with
      | inl e => "Error reading notebook: " ++ exn_str repr e
      | inr cells =>
          match expected_blocks cells keywords start_cell end_cell only_errors
          with
          | [] => "No matching cells found with the specified filters."
          | block :: blocks => join newline (block :: blocks)
          end
      end
    /\ (forall message, exn_str repr (ReadError message) = message)
    /\ (forall name, exn_str repr (AttributeError name) = name)
    /\ (forall literal,
          exn_str repr (ValueError_int literal)
          = "invalid literal for int() with base 10: " ++ repr literal).
Proof.
  intros. split; [apply read_notebook_expected | repeat split].
Qed.

(** A code cell whose stream output has no [text]: the tool answers
    with the name of the missing field. *)
Lemma read_notebook_missing_text :
  read_notebook
    (fun _ => inr [Node.Cell (Some "code") (Some (TextStr "print(1)"))
                     (Some (Some 1))
                     (Some [Node.Output (Some "stream") None None None None
                              None])])
    (fun s => s) "nb.ipynb" None None None None
  = "Error reading notebook: text".
Proof. reflexivity. Qed.

(** X10: once the notebook loads and every cell and output has the
    fields the renderers read, a call of [read_notebook] that gives
    [start_cell] or [end_cell] returns the sentence
    [No matching cells found with the specified filters.], whatever
    the notebook holds and whatever the bounds and the other filters
    are: no rendered block passes [filter_by_cell_index].  When a field
    is missing the call returns the error text with the name of the
    field. *)
Theorem read_notebook_range_finds_nothing :
  forall (nb_read : string -> outcome notebook) (repr : string -> string)
         (path : string) (nb : notebook) (keywords : option keywords_arg)
         (start_cell end_cell : option Z) (only_errors : option bool),
    nb_read path = inr nb ->
    is_given start_cell || is_given end_cell = true ->
    read_notebook nb_read repr path keywords start_cell end_cell only_errors
    = match traverse cell_view nb with
      | inl e => "Error reading notebook: " ++ exn_str repr e
      | inr _ => "No matching cells found with the specified filters."
      end.
Proof.
  intros nb_read repr path nb keywords start_cell end_cell only_errors L G.
  rewrite read_notebook_expected, L. cbn [bind].
  destruct (traverse cell_view nb) as [e|cells]; [reflexivity|].
  unfold expected_blocks. rewrite G. now destruct only_errors.
Qed.

Lemma read_notebook_range_finds_nothing_witness :
  (fun _ : string => inr [node_of_cell hello_markdown; node_of_cell rmse_cell])
    "nb.ipynb"
  = (inr [node_of_cell hello_markdown; node_of_cell rmse_cell]
     : outcome notebook)
  /\ is_given (Some 0) || is_given (@None Z) = true
  /\ read_notebook
       (fun _ => inr [node_of_cell hello_markdown; node_of_cell rmse_cell])
       (fun s => s) "nb.ipynb" None (Some 0) None None
     = match traverse cell_view
               [node_of_cell hello_markdown; node_of_cell rmse_cell]
       with
       | inl e => "Error reading notebook: " ++ exn_str (fun s => s) e
       | inr _ => "No matching cells found with the specified filters."
       end.
Proof.
  split; [reflexivity|]. split; [reflexivity|].
  exact (read_notebook_range_finds_nothing
           (fun _ => inr [node_of_cell hello_markdown; node_of_cell rmse_cell])
           (fun s => s) "nb.ipynb"
           [node_of_cell hello_markdown; node_of_cell rmse_cell]
           None (Some 0) None None eq_refl eq_refl).
Defined.

Lemma contains_empty (s : string) : contains s "" = true.
Proof. unfold contains. rewrite find_sub_unfold. now destruct s. Qed.

Lemma filter_all {A} (f : A -> bool) (l : list A) :
  (forall x, f x = true) -> List.filter f l = l.
Proof.
  intros H. induction l as [|x l IH]; simpl; [reflexivity|].
  now rewrite H, IH.
Qed.

Lemma filter_none {A} (f : A -> bool) (l : list A) :
  (forall x, f x = false) -> List.filter f l = [].
Proof.
  intros H. induction l as [|x l IH]; simpl; [reflexivity|].
  now rewrite H.
Qed.

(** X11: [filter_by_keyword] with an empty list of keywords keeps no
    block, and with the empty string as keyword keeps every block;
    [read_notebook] does not call it in either case and answers as it
    does without keywords. *)
Theorem empty_keywords :
  forall (blocks : list string),
    filter_by_keyword blocks (KwList []) = []
    /\ filter_by_keyword blocks (KwStr "") = blocks
    /\ forall (nb_read : string -> outcome notebook) (repr : string -> string)
              (path : string) (start_cell end_cell : option Z)
              (only_errors : option bool),
         read_notebook nb_read repr path (Some (KwList [])) start_cell end_cell
           only_errors
         = read_notebook nb_read repr path None start_cell end_cell only_errors
         /\ read_notebook nb_read repr path (Some (KwStr "")) start_cell
              end_cell only_errors
            = read_notebook nb_read repr path None start_cell end_cell
                only_errors.
Proof.
  intros blocks. rewrite !filter_by_keyword_filter. split; [|split].
  - now apply filter_none.
  - apply filter_all. intros b. unfold keyword_hit. simpl.
    now rewrite contains_empty.
  - intros. split; reflexivity.
Qed.

Lemma rendered_cells_exist (nb : list cell) (i : Z) :
  existsb is_rendered nb
  = match List.filter (fun ic => is_rendered (snd ic)) (enumerate_from i nb)
    with [] => false | _ => true end.
Proof.
  revert i; induction nb as [|c nb IH]; intros i; [reflexivity|].
  cbn [enumerate_from List.filter existsb snd].
  destruct (is_rendered c); [reflexivity | apply IH].
Qed.

(** X12: with no filter at all, the notebook loaded and every cell and
    output holding the fields the renderers read, [read_notebook]
    returns the blocks of the markdown and code cells joined by line
    feeds, and the sentence
    [No matching cells found with the specified filters.] exactly when
    the notebook has no markdown and no code cell.  When a field is
    missing it returns the error text with the name of the field. *)
Theorem read_notebook_unfiltered :
  forall (nb_read : string -> outcome notebook) (repr : string -> string)
         (path : string) (nb : notebook),
    nb_read path = inr nb ->
    read_notebook nb_read repr path None None None None
    = match traverse cell_view nb with
      | inl e => "Error reading notebook: " ++ exn_str repr e
      | inr cells =>
          if existsb is_rendered cells
          then join newline
                 (map (fun ic => format_cell (snd ic) (fst ic))
                    (List.filter (fun ic => is_rendered (snd ic))
                       (enumerate_from 0 cells)))
          else "No matching cells found with the specified filters."
      end.
Proof.
  intros nb_read repr path nb L.
  rewrite read_notebook_expected, L. cbn [bind].
  destruct (traverse cell_view nb) as [e|cells]; [reflexivity|].
  unfold expected_blocks. cbn [is_given orb].
  rewrite (rendered_cells_exist cells 0).
  now destruct (List.filter _ (enumerate_from 0 cells)).
Qed.

Lemma read_notebook_unfiltered_witness :
  (fun _ : string => inr [node_of_cell hello_markdown]) "nb.ipynb"
  = (inr [node_of_cell hello_markdown] : outcome notebook)
  /\ read_notebook (fun _ => inr [node_of_cell hello_markdown]) (fun s => s)
       "nb.ipynb" None None None None
     = match traverse cell_view [node_of_cell hello_markdown] with
       | inl e => "Error reading notebook: " ++ exn_str (fun s => s) e
       | inr cells =>
           if existsb is_rendered cells
           then join newline
                  (map (fun ic => format_cell (snd ic) (fst ic))
                     (List.filter (fun ic => is_rendered (snd ic))
                        (enumerate_from 0 cells)))
           else "No matching cells found with the specified filters."
       end.
Proof.
  split; [reflexivity|].
  exact (read_notebook_unfiltered (fun _ => inr [node_of_cell hello_markdown])
           (fun s => s) "nb.ipynb" [node_of_cell hello_markdown] eq_refl).
Defined.

(** ** Further properties: keywords and the error filter *)

Lemma keyword_hit_app (ks1 ks2 : list string) (block : string) :
  keyword_hit (ks1 ++ ks2) block = keyword_hit ks1 block || keyword_hit ks2 block.
Proof. unfold keyword_hit. apply existsb_app. Qed.

(** X13: filtering by a list of keywords keeps a block exactly when
    filtering by a part of the list or by the remaining part keeps it;
    a single string counts as the list of that one keyword. *)
Theorem filter_by_keyword_union :
  forall (blocks ks1 ks2 : list string) (k block : string),
    (In block (filter_by_keyword blocks (KwList (ks1 ++ ks2))) <->
     In block (filter_by_keyword blocks (KwList ks1))
     \/ In block (filter_by_keyword blocks (KwList ks2)))
    /\ filter_by_keyword blocks (KwStr k) = filter_by_keyword blocks (KwList [k]).
Proof.
  intros blocks ks1 ks2 k block. split; [|reflexivity].
  rewrite !filter_by_keyword_filter, !filter_In. cbn [keyword_list].
  rewrite keyword_hit_app, orb_true_iff. tauto.
Qed.

Lemma keyword_hit_lowered (ks : list string) (block : string) :
  keyword_hit ks block = existsb (contains (lower block)) (map lower ks).
Proof.
  unfold keyword_hit. induction ks as [|k ks IH]; simpl; [reflexivity|].
  now rewrite IH.
Qed.

(** X14: the letter case of the keywords does not matter: two keyword
    lists that are equal once every keyword is lowered keep the same
    blocks. *)
Theorem filter_by_keyword_case :
  forall (blocks ks ks' : list string),
    map lower ks = map lower ks' ->
    filter_by_keyword blocks (KwList ks) = filter_by_keyword blocks (KwList ks').
Proof.
  intros blocks ks ks' H. rewrite !filter_by_keyword_filter. cbn [keyword_list].
  apply filter_ext. intros b. now rewrite !keyword_hit_lowered, H.
Qed.

Lemma filter_by_keyword_case_witness :
  map lower ["RMSE"; "Arima"] = map lower ["rmse"; "ARIMA"]
  /\ filter_by_keyword [format_cell rmse_cell 0; format_cell hello_markdown 1]
       (KwList ["RMSE"; "Arima"])
     = filter_by_keyword [format_cell rmse_cell 0; format_cell hello_markdown 1]
         (KwList ["rmse"; "ARIMA"]).
Proof.
  split; [reflexivity|].
  exact (filter_by_keyword_case
           [format_cell rmse_cell 0; format_cell hello_markdown 1]
           ["RMSE"; "Arima"] ["rmse"; "ARIMA"] eq_refl).
Defined.

Lemma filter_comm {A} (f g : A -> bool) (l : list A) :
  List.filter f (List.filter g l) = List.filter g (List.filter f l).
Proof.
  induction l as [|x l IH]; simpl; [reflexivity|].
  destruct (f x) eqn:F, (g x) eqn:G; simpl; rewrite ?F, ?G, IH; reflexivity.
Qed.

(** X15: the keyword filter and the error filter can be applied in
    either order: the result is the same list. *)
Theorem keyword_and_error_filters_commute :
  forall (blocks : list string) (keywords : keywords_arg) (has_error : bool),
    filter_has_error (filter_by_keyword blocks keywords) has_error
    = filter_by_keyword (filter_has_error blocks has_error) keywords.
Proof.
  intros blocks keywords has_error.
  rewrite !filter_by_keyword_filter, !filter_has_error_filter.
  apply filter_comm.
Qed.

Lemma error_verdict_targets (lines : list string) :
  error_verdict true lines && error_verdict false lines = false
  /\ error_verdict true lines || error_verdict false lines
     = existsb (fun l => startswith l "[HAS_ERROR]") lines.
Proof.
  induction lines as [|l ls [IH1 IH2]]; simpl; [auto|].
  destruct (startswith l "[HAS_ERROR]"); simpl; [|auto].
  now destruct (has_error_flag l).
Qed.

(** X16: the two targets of [filter_has_error] never keep the same
    block, and between them they keep exactly the blocks that have a
    line beginning with [[HAS_ERROR]]. *)
Theorem filter_has_error_targets :
  forall (blocks : list string) (block : string),
    ~ (In block (filter_has_error blocks true)
       /\ In block (filter_has_error blocks false))
    /\ (In block (filter_has_error blocks true)
        \/ In block (filter_has_error blocks false) <->
        In block blocks
        /\ exists line, In line (splitlines block)
             /\ startswith line "[HAS_ERROR]" = true).
Proof.
  intros blocks block. rewrite !filter_has_error_filter, !filter_In.
  destruct (error_verdict_targets (splitlines block)) as [D U].
  split.
  - intros [[_ T] [_ F]]. rewrite T, F in D. discriminate D.
  - rewrite <- existsb_exists, <- U, orb_true_iff. tauto.
Qed.

Lemma error_verdict_code_block (c : cell) (index : Z) (has_error : bool) :
  cell_type c = "code" ->
  error_verdict has_error (splitlines (format_cell c index))
  = Bool.eqb (snd (format_outputs (outputs c))) has_error.
Proof.
  intros T. pose proof (filter_has_error_code_block c index has_error T) as H.
  rewrite filter_has_error_filter in H. simpl in H.
  destruct (error_verdict has_error (splitlines (format_cell c index)));
    destruct (Bool.eqb (snd (format_outputs (outputs c))) has_error);
    congruence.
Qed.

(** X17: among any blocks, the rendered block of a code cell is kept by
    [filter_has_error] with target [True] exactly when the cell has an
    error record among its outputs, and with target [False] exactly
    when it has none: text in the source or in the outputs that looks
    like a tag line does not change this. *)
Theorem filter_has_error_code_cell :
  forall (blocks : list string) (c : cell) (index : Z) (has_error : bool),
    cell_type c = "code" ->
    (In (format_cell c index) (filter_has_error blocks has_error) <->
     In (format_cell c index) blocks
     /\ ((exists ename evalue traceback,
            In (Error ename evalue traceback) (outputs c))
         <-> has_error = true)).
Proof.
  intros blocks c index has_error T.
  rewrite filter_has_error_filter, filter_In.
  rewrite (error_verdict_code_block c index has_error T).
  rewrite <- has_error_iff_error_record.
  destruct (snd (format_outputs (outputs c))), has_error; simpl;
    intuition congruence.
Qed.

Lemma filter_has_error_code_cell_witness :
  cell_type echo_cell = "code"
  /\ (In (format_cell echo_cell 0)
         (filter_has_error [format_cell echo_cell 0] false) <->
      In (format_cell echo_cell 0) [format_cell echo_cell 0]
      /\ ((exists ename evalue traceback,
             In (Error ename evalue traceback) (outputs echo_cell))
          <-> false = true)).
Proof.
  split; [reflexivity|].
  exact (filter_has_error_code_cell [format_cell echo_cell 0] echo_cell 0
           false eq_refl).
Defined.

(** ** Further properties: the function map *)

Section FunctionMapFacts.

Variable findall : string -> list string.

Lemma record_functions_lookup (matches : list string) (cell_index : Z)
    (func_map : gmap string Z) (fn : string) :
  record_functions matches cell_index func_map !! fn
  = if in_dec string_dec fn matches then Some cell_index else func_map !! fn.
Proof.
  revert func_map; induction matches as [|x rest IH]; intros func_map.
  - reflexivity.
  - cbn [record_functions]. rewrite IH.
    destruct (in_dec string_dec fn rest) as [Hr|Hr];
      destruct (in_dec string_dec fn (x :: rest)) as [Hx|Hx];
      try reflexivity.
    + exfalso. apply Hx. now right.
    + destruct Hx as [->|Hx]; [apply lookup_insert_eq | contradiction].
    + apply lookup_insert_ne. intros ->. apply Hx. now left.
Qed.

Lemma build_loop_app (l1 l2 : list string) (func_map : gmap string Z) :
  build_function_cell_map_loop findall (l1 ++ l2) func_map
  = (let* m := build_function_cell_map_loop findall l1 func_map in
     build_function_cell_map_loop findall l2 m).
Proof.
  revert func_map; induction l1 as [|b l1 IH]; intros func_map;
    [reflexivity|].
  cbn [app build_function_cell_map_loop].
  destruct (negb (startswith _ "[CELL")); [apply IH|].
  destruct (header_index _) as [e|idx]; cbn [bind]; [reflexivity | apply IH].
Qed.

Lemma build_loop_headerless (blocks : list string) (func_map : gmap string Z) :
  Forall (fun b => startswith (header_line b) "[CELL" = false) blocks ->
  build_function_cell_map_loop findall blocks func_map = inr func_map.
Proof.
  induction 1 as [|b bs Hb _ IH]; [reflexivity|].
  cbn [build_function_cell_map_loop]. unfold header_line in Hb.
  now rewrite Hb.
Qed.

Lemma build_loop_untouched (blocks : list string) (m0 m : gmap string Z)
    (fn : string) :
  build_function_cell_map_loop findall blocks m0 = inr m ->
  (forall b, In b blocks -> ~ In fn (findall b)) ->
  m !! fn = m0 !! fn.
Proof.
  revert m0; induction blocks as [|b bs IH]; intros m0 H N.
  - now injection H as <-.
  - cbn [build_function_cell_map_loop] in H.
    assert (N' : forall b', In b' bs -> ~ In fn (findall b'))
      by (intros b' Hb'; apply N; now right).
    destruct (negb (startswith _ "[CELL")); [now apply IH|].
    destruct (header_index _) as [e|idx]; cbn [bind] in H; [discriminate H|].
    rewrite (IH _ H N'), record_functions_lookup.
    destruct (in_dec string_dec fn (findall b)) as [Hin|]; [|reflexivity].
    exfalso. apply (N b); [now left | exact Hin].
Qed.

Lemma build_loop_sound (blocks : list string) (m0 m : gmap string Z)
    (fn : string) (idx : Z) :
  build_function_cell_map_loop findall blocks m0 = inr m ->
  m !! fn = Some idx ->
  m0 !! fn = Some idx
  \/ exists block,
       In block blocks
       /\ startswith (header_line block) "[CELL" = true
       /\ header_index (header_line block) = inr idx
       /\ In fn (findall block).
Proof.
  revert m0; induction blocks as [|b bs IH]; intros m0 H L.
  - injection H as <-. now left.
  - cbn [build_function_cell_map_loop] in H.
    destruct (startswith (item (split b newline (Some 1%nat)) 0) "[CELL")
      eqn:S; cbn [negb] in H.
    + destruct (header_index (item (split b newline (Some 1%nat)) 0))
        as [e|i] eqn:I; cbn [bind] in H; [discriminate H|].
      destruct (IH _ H L) as [L0|(block & Hin & R)].
      * rewrite record_functions_lookup in L0.
        destruct (in_dec string_dec fn (findall b)) as [Hf|]; [|now left].
        injection L0 as <-. right. exists b.
        unfold header_line. repeat split; auto. now left.
      * right. exists block. split; [now right | exact R].
    + destruct (IH _ H L) as [L0|(block & Hin & R)]; [now left|].
      right. exists block. split; [now right | exact R].
Qed.

End FunctionMapFacts.

(** X18: on rendered blocks [build_function_cell_map] returns the empty
    map, whatever the cells define and whatever the pattern finds: each
    block begins with a line feed, so no first line starts with
    [[CELL] and every block is skipped before the pattern is used. *)
Theorem build_function_cell_map_rendered :
  forall (findall : string -> list string),
    (forall (cells : list (Z * cell)),
       build_function_cell_map findall
         (map (fun ic => format_cell (snd ic) (fst ic)) cells)
       = inr ∅)
    /\ (forall (nb_read : string -> outcome notebook) (path : string),
          (let* blocks := notebook_to_llm_blocks nb_read path in
           build_function_cell_map findall blocks)
          = (let* blocks := notebook_to_llm_blocks nb_read path in inr ∅)).
Proof.
  intros findall. split.
  - intros cells. apply build_loop_headerless, List.Forall_forall.
    intros b Hb. apply in_map_iff in Hb as ([i c] & <- & _).
    unfold header_line. now rewrite format_cell_header_empty.
  - intros nb_read path. rewrite notebook_to_llm_blocks_view.
    destruct (nb_read path) as [e|nb]; cbn [bind]; [reflexivity|].
    destruct (traverse cell_view nb) as [e|cells]; cbn [bind]; [reflexivity|].
    apply build_loop_headerless, render_cells_Forall; [|constructor].
    intros c i. unfold header_line. now rewrite format_cell_header_empty.
Qed.

(** X19: every entry of the map [build_function_cell_map] returns comes
    from a block: if a name is mapped to an index, some block has a
    first line that starts with [[CELL] and holds that index, and the
    pattern finds the name in that block. *)
Theorem build_function_cell_map_sound :
  forall (findall : string -> list string) (blocks : list string)
         (func_map : gmap string Z) (fn : string) (idx : Z),
    build_function_cell_map findall blocks = inr func_map ->
    func_map !! fn = Some idx ->
    exists block,
      In block blocks
      /\ startswith (header_line block) "[CELL" = true
      /\ header_index (header_line block) = inr idx
      /\ In fn (findall block).
Proof.
  intros findall blocks func_map fn idx H L.
  destruct (build_loop_sound findall blocks ∅ func_map fn idx H L)
    as [E|R]; [|exact R].
  rewrite lookup_empty in E. discriminate E.
Qed.

(** X20: a later block overwrites an earlier one: the map sends a name
    to the index of the last block with a [[CELL] header in which the
    pattern finds the name, whatever the blocks before it hold. *)
Theorem build_function_cell_map_last_wins :
  forall (findall : string -> list string) (before after : list string)
         (block : string) (func_map : gmap string Z) (fn : string) (idx : Z),
    build_function_cell_map findall (before ++ block :: after)%list
    = inr func_map ->
    startswith (header_line block) "[CELL" = true ->
    header_index (header_line block) = inr idx ->
    In fn (findall block) ->
    (forall b, In b after -> ~ In fn (findall b)) ->
    func_map !! fn = Some idx.
Proof.
  intros findall before after block func_map fn idx H S I F N.
  unfold build_function_cell_map in H. rewrite build_loop_app in H.
  destruct (build_function_cell_map_loop findall before ∅) as [e|m1];
    cbn [bind] in H; [discriminate H|].
  cbn [build_function_cell_map_loop] in H. unfold header_line in S, I.
  rewrite S, I in H. cbn [negb bind] in H.
  rewrite (build_loop_untouched findall _ _ _ fn H N).
  rewrite record_functions_lookup.
  now destruct (in_dec string_dec fn (findall block)).
Qed.

Lemma build_function_cell_map_sound_witness :
  build_function_cell_map finds_load load_blocks
  = inr (<["load" := 5]> (<["load" := 2]> ∅))
  /\ (<["load" := 5]> (<["load" := 2]> ∅) : gmap string Z) !! "load" = Some 5
  /\ exists block,
       In block load_blocks
       /\ startswith (header_line block) "[CELL" = true
       /\ header_index (header_line block) = inr 5
       /\ In "load" (finds_load block).
Proof.
  assert (B : build_function_cell_map finds_load load_blocks
              = inr (<["load" := 5]> (<["load" := 2]> ∅)))
    by (vm_compute; reflexivity).
  assert (L : (<["load" := 5]> (<["load" := 2]> ∅) : gmap string Z) !! "load"
              = Some 5)
    by apply lookup_insert_eq.
  split; [exact B|]. split; [exact L|].
  exact (build_function_cell_map_sound finds_load load_blocks _ "load" 5 B L).
Defined.

Lemma build_function_cell_map_last_wins_witness :
  build_function_cell_map finds_load
    ([nth 0 load_blocks ""] ++ nth 1 load_blocks "" :: [nth 2 load_blocks ""])%list
  = inr (<["load" := 5]> (<["load" := 2]> ∅))
  /\ startswith (header_line (nth 1 load_blocks "")) "[CELL" = true
  /\ header_index (header_line (nth 1 load_blocks "")) = inr 5
  /\ In "load" (finds_load (nth 1 load_blocks ""))
  /\ (forall b, In b [nth 2 load_blocks ""] -> ~ In "load" (finds_load b))
  /\ (<["load" := 5]> (<["load" := 2]> ∅) : gmap string Z) !! "load" = Some 5.
Proof.
  assert (B : build_function_cell_map finds_load
                ([nth 0 load_blocks ""] ++ nth 1 load_blocks ""
                   :: [nth 2 load_blocks ""])%list
              = inr (<["load" := 5]> (<["load" := 2]> ∅)))
    by (vm_compute; reflexivity).
  assert (N : forall b, In b [nth 2 load_blocks ""] ->
                        ~ In "load" (finds_load b))
    by (intros b [<-|[]] H; vm_compute in H; exact H).
  assert (F : In "load" (finds_load (nth 1 load_blocks "")))
    by (vm_compute; now left).
  split; [exact B|]. split; [reflexivity|]. split; [reflexivity|].
  split; [exact F|]. split; [exact N|].
  exact (build_function_cell_map_last_wins finds_load
           [nth 0 load_blocks ""] [nth 2 load_blocks ""] (nth 1 load_blocks "")
           _ "load" 5 B eq_refl eq_refl F N).
Defined.

Lemma build_loop_returns (findall : string -> list string)
    (blocks : list string) (m0 : gmap string Z) :
  (exists m, build_function_cell_map_loop findall blocks m0 = inr m) <->
  Forall (fun block =>
            startswith (header_line block) "[CELL" = true ->
            exists idx, header_index (header_line block) = inr idx)
         blocks.
Proof.
  revert m0; induction blocks as [|b bs IH]; intros m0.
  - split; [constructor | eauto].
  - cbn [build_function_cell_map_loop]. rewrite List.Forall_cons_iff.
    unfold header_line at 1 2.
    destruct (startswith (item (split b newline (Some 1%nat)) 0) "[CELL");
      cbn [negb].
    + destruct (header_index (item (split b newline (Some 1%nat)) 0))
        as [e|idx]; cbn [bind].
      * split; [intros [m H]; discriminate H|].
        intros [H _]. destruct (H eq_refl) as [idx I]. discriminate I.
      * rewrite IH. split; [intros H; split; eauto | tauto].
    + rewrite IH. split; [intros H; split; [discriminate | exact H] | tauto].
Qed.

(** X21: [build_function_cell_map] returns a map exactly when every
    block whose first line starts with [[CELL] holds an integer between
    [[CELL] and the first [|] of that line; otherwise [int] raises its
    [ValueError], whatever the pattern finds. *)
Theorem build_function_cell_map_returns :
  forall (findall : string -> list string) (blocks : list string),
    (exists func_map, build_function_cell_map findall blocks = inr func_map)
    <->
    Forall (fun block =>
              startswith (header_line block) "[CELL" = true ->
              exists idx, header_index (header_line block) = inr idx)
           blocks.
Proof. intros findall blocks. apply build_loop_returns. Qed.

(** ** Further properties: blocks are told apart by their index *)

Lemma format_cell_index_inj (c c' : cell) (i j : Z) :
  is_rendered c = true -> is_rendered c' = true ->
  format_cell c i = format_cell c' j -> i = j.
Proof.
  intros R R' E.
  destruct (header_round_trip c i R) as [_ H].
  destruct (header_round_trip c' j R') as [_ H'].
  rewrite E, H' in H. congruence.
Qed.

Lemma enumerate_from_ge (cells : list cell) (i j : Z) (c : cell) :
  In (j, c) (enumerate_from i cells) -> i <= j.
Proof.
  revert i; induction cells as [|x cells IH]; intros i; simpl; [tauto|].
  intros [E|H]; [injection E; lia | apply IH in H; lia].
Qed.

Lemma rendered_blocks_NoDup (cells : list cell) (i : Z) :
  List.NoDup
    (map (fun ic => format_cell (snd ic) (fst ic))
       (List.filter (fun ic => is_rendered (snd ic))
          (enumerate_from i cells))).
Proof.
  revert i; induction cells as [|c cells IH]; intros i.
  - constructor.
  - cbn [enumerate_from List.filter snd].
    destruct (is_rendered c) eqn:R; [|apply IH].
    cbn [map fst snd]. apply List.NoDup_cons; [|apply IH].
    intros Hin. apply in_map_iff in Hin as ([j c'] & E & Hin).
    apply filter_In in Hin as [Hin R']. cbn [fst snd] in *.
    apply enumerate_from_ge in Hin.
    apply (format_cell_index_inj c' c j i R' R) in E. lia.
Qed.

(** X22: the blocks [notebook_to_llm_blocks] returns are pairwise
    different, also for cells with the same content: each block carries
    the position of its cell in its header. *)
Theorem notebook_to_llm_blocks_NoDup :
  forall (nb_read : string -> outcome notebook) (path : string)
         (blocks : list string),
    notebook_to_llm_blocks nb_read path = inr blocks -> List.NoDup blocks.
Proof.
  intros nb_read path blocks H.
  rewrite notebook_to_llm_blocks_view in H.
  destruct (nb_read path) as [e|nb]; cbn [bind] in H; [discriminate H|].
  destruct (traverse cell_view nb) as [e|cells]; cbn [bind] in H;
    [discriminate H|].
  injection H as <-. rewrite render_cells_enumerate.
  apply rendered_blocks_NoDup.
Qed.

Lemma notebook_to_llm_blocks_NoDup_witness :
  notebook_to_llm_blocks
    (fun _ => inr [node_of_cell hello_markdown; node_of_cell hello_markdown])
    "nb.ipynb"
  = inr [format_cell hello_markdown 0; format_cell hello_markdown 1]
  /\ List.NoDup [format_cell hello_markdown 0; format_cell hello_markdown 1].
Proof.
  assert (B : notebook_to_llm_blocks
                (fun _ => inr [node_of_cell hello_markdown;
                               node_of_cell hello_markdown]) "nb.ipynb"
              = inr [format_cell hello_markdown 0; format_cell hello_markdown 1])
    by reflexivity.
  split; [exact B|].
  exact (notebook_to_llm_blocks_NoDup
           (fun _ => inr [node_of_cell hello_markdown;
                          node_of_cell hello_markdown]) "nb.ipynb" _ B).
Defined.
